(** * The coverage check of script/check-coverage.py

    The script runs [forge coverage --report summary], parses the printed
    table into a dictionary from contract path to its four coverage
    percentages, checks the production contracts against the 100% policy,
    prints a report and exits with 0 or 1.

    The development follows the script from top to bottom: the string
    primitives of Python it calls, the regular expression, [float], the
    parsing loop, the two reporting loops and the exit.

    Text is modelled by [string]: a character is a code point below 256.
    On that range the definitions of [isspace] and of the class [\d] below
    are those of Python 3. *)

From Stdlib Require Import ZArith Ascii String Floats.SpecFloat.
From stdpp Require Import base tactics option list sorting gmap strings.

Local Open Scope Z_scope.

(** ** Python's [str] methods used by the script *)

Module Str.

(** [str.isspace] on one character, for code points below 256
    (tab, LF, VT, FF, CR, FS, GS, RS, US, space, NEL, NBSP). *)
Definition isspace (c : ascii) : bool :=
  match c with
  | "009" | "010" | "011" | "012" | "013"
  | "028" | "029" | "030" | "031" | " " | "133" | "160" => true
  | _ => false
  end%char.

(** The class [\d] of [re] on one character: the decimal digits. Below
    256 these are the ten ASCII digits. *)
Definition isdigit (c : ascii) : bool :=
  match c with
  | "0" | "1" | "2" | "3" | "4" | "5" | "6" | "7" | "8" | "9" => true
  | _ => false
  end%char.

(** [s.startswith(p)] *)
Fixpoint startswith (p s : string) : bool :=
  match p, s with
  | EmptyString, _ => true
  | String a p', String b s' => if Ascii.eqb a b then startswith p' s' else false
  | String _ _, EmptyString => false
  end.

(** [sub in s] *)
Fixpoint contains (sub s : string) : bool :=
  match s with
  | EmptyString => startswith sub EmptyString
  | String _ s' => startswith sub s || contains sub s'
  end.

(** [s.split(sep)] for a separator of one character; the result is
    never empty, and [n] separators give [n + 1] parts. *)
Fixpoint split (sep : ascii) (s : string) : list string :=
  match s with
  | EmptyString => [EmptyString]
  | String c s' =>
      if Ascii.eqb c sep then EmptyString :: split sep s'
      else match split sep s' with
           | h :: t => String c h :: t
           | [] => [String c EmptyString]
           end
  end.

Fixpoint lstrip (s : string) : string :=
  match s with
  | String c s' => if isspace c then lstrip s' else s
  | EmptyString => EmptyString
  end.

Fixpoint rstrip (s : string) : string :=
  match s with
  | EmptyString => EmptyString
  | String c s' =>
      match rstrip s' with
      | EmptyString => if isspace c then EmptyString else String c EmptyString
      | r => String c r
      end
  end.

(** [s.strip()] *)
Definition strip (s : string) : string := rstrip (lstrip s).

(** A string is true in a condition when it is not empty. *)
Definition truthy (s : string) : bool :=
  match s with EmptyString => false | String _ _ => true end.

End Str.

(** ** The regular expression [(\d+\.\d+)%]

    Both [\d+] are greedy. A shorter run of digits can never be followed by
    the literal the pattern asks for next (the next character is a digit),
    so at a given start the only candidate is: the longest run of digits,
    a dot, the longest run of digits, a percent sign. *)

Module Re.

(** The longest prefix of digits, and what follows it. *)
Fixpoint span_digits (s : string) : string * string :=
  match s with
  | String c s' =>
      if Str.isdigit c
      then let '(d, r) := span_digits s' in (String c d, r)
      else (EmptyString, s)
  | EmptyString => (EmptyString, EmptyString)
  end.

(** The pattern anchored at the start of [s]; the result is group 1. *)
Definition match_here (s : string) : option string :=
  match span_digits s with
  | (String a ip, String "." r) =>
      match span_digits r with
      | (String b fp, String "%" _) =>
          Some (String a ip +:+ "." +:+ String b fp)
      | _ => None
      end
  | _ => None
  end.

(** [re.search(r'(\d+\.\d+)%', s)]: the match at the leftmost start,
    [None] when there is none. *)
Fixpoint search (s : string) : option string :=
  match match_here s with
  | Some g => Some g
  | None =>
      match s with
      | EmptyString => None
      | String _ s' => search s'
      end
  end.

End Re.

(** ** Numbers: [float] and the values stored in the dictionary *)

Module Float.

(** Python's [float] is IEEE 754 binary64. *)
Definition prec : Z := 53.
Definition emax : Z := 1024.

(** [n / d] rounded to the nearest binary64, ties to even, for [n >= 0]:
    the quotient is computed with at least [prec] bits and the position of
    the remainder, then rounded once. *)
Definition of_ratio (n : Z) (d : positive) : spec_float :=
  match n with
  | Zpos _ =>
      let '(q, e, l) := SFdiv_core_binary prec emax n 0 (Zpos d) 0 in
      binary_round_aux prec emax false q e l
  | _ => S754_zero false
  end.

Definition digit_value (c : ascii) : Z := Z.of_N (N_of_ascii c) - 48.

(** The integer written by a string of digits. *)
Fixpoint int_of_digits (acc : Z) (s : string) : Z :=
  match s with
  | EmptyString => acc
  | String c s' => int_of_digits (10 * acc + digit_value c) s'
  end.

Definition all_digits (s : string) : bool :=
  forallb Str.isdigit (list_ascii_of_string s).

(** [float(s)] on the literals the script passes to it: digits, a dot,
    digits. The value is the decimal number correctly rounded. On other
    strings this model answers [None]; [float] itself accepts more
    (signs, exponents, [inf], [nan], blanks around the number) and raises
    [ValueError] on the rest. *)
Definition of_string (s : string) : option spec_float :=
  match Re.span_digits s with
  | (String a ip, String "." fp) =>
      if Str.truthy fp && all_digits fp
      then Some (of_ratio (int_of_digits 0 (String a ip +:+ fp))
                          (Pos.pow 10 (Pos.of_nat (String.length fp))))
      else None
  | _ => None
  end.

(** The literal [100.0] of the script. *)
Definition hundred : spec_float := S754_finite false 7036874417766400 (-46).

Definition zero : spec_float := S754_zero false.

End Float.

(** A value stored under a metric: the [float] of the matched text, or the
    integer [0] of the [else] branch. *)
Inductive number :=
  | PyInt (z : Z)
  | PyFloat (f : spec_float).

Module Num.

(** [z == f] for an integer and a float: Python compares the exact
    values. *)
Definition int_eq_float (z : Z) (f : spec_float) : bool :=
  match f with
  | S754_zero _ => z =? 0
  | S754_finite s m e =>
      let v := cond_Zopp s (Zpos m) in
      if 0 <=? e then z =? v * 2 ^ e else z * 2 ^ (- e) =? v
  | _ => false
  end.

(** [v == f] where [f] is a float. *)
Definition eq_float (v : number) (f : spec_float) : bool :=
  match v with
  | PyInt z => int_eq_float z f
  | PyFloat g => SFeqb g f
  end.

End Num.

(** ** Exceptions and output *)

(** The exceptions that the statements of the script can raise. *)
Inductive exn :=
  | IndexError
  | KeyError (k : string)
  | ValueError
  | SystemExit (code : Z).

(** A computation that returns a value or raises. *)
Definition E (A : Type) : Type := exn + A.

Module Exn.

Definition ret {A} (a : A) : E A := inr a.
Definition raise {A} (e : exn) : E A := inl e.
Definition bind {A B} (m : E A) (k : A → E B) : E B :=
  match m with
  | inl e => inl e
  | inr a => k a
  end.

(** [l[i]] *)
Definition index {A} (l : list A) (i : nat) : E A :=
  match l !! i with
  | Some a => ret a
  | None => raise IndexError
  end.

(** [d[k]] *)
Definition getitem {V} (d : gmap string V) (k : string) : E V :=
  match d !! k with
  | Some v => ret v
  | None => raise (KeyError k)
  end.

(** [float(s)] *)
Definition float (s : string) : E spec_float :=
  match Float.of_string s with
  | Some f => ret f
  | None => raise ValueError
  end.

End Exn.

Notation "x ←! m ; k" := (Exn.bind m (λ x, k))
  (at level 20, m at level 100, k at level 200, only parsing).

(** ** Parsing the table (lines 39 to 60) *)

(** The dictionary built for one contract. Its keys are always these four,
    in this order. *)
Record coverage := Coverage {
  lines : number;
  statements : number;
  branches : number;
  functions : number
}.

(** [data.items()] *)
Definition items (data : coverage) : list (string * number) :=
  [("lines", lines data); ("statements", statements data);
   ("branches", branches data); ("functions", functions data)].

(** [data.values()] *)
Definition values (data : coverage) : list number := (items data).*2.

(** [float(m.group(1)) if m else 0], where [m] is the result of
    [re.search]: a match object is true, [None] is false. *)
Definition value_of (m : option string) : E number :=
  match m with
  | Some g => f ←! Exn.float g; Exn.ret (PyFloat f)
  | None => Exn.ret (PyInt 0)
  end.

(** The value stored for a cell: the search of lines 50 to 53 followed by
    the conversion of lines 56 to 59. *)
Definition metric (cell : string) : E number := value_of (Re.search cell).

(** The body of the loop at line 43: the dictionary after [line]. *)
Definition parse_line (coverage_data : gmap string coverage) (line : string)
  : E (gmap string coverage) :=
  if Str.startswith "|" line && Str.contains " | " line then
    let parts := Str.split "|" line in
    if (6 <=? length parts)%nat then
      p1 ←! Exn.index parts 1;
      let contract := Str.strip p1 in
      if Str.truthy contract && negb (Str.startswith "-" contract) then
        p2 ←! Exn.index parts 2;
        let lines_match := Re.search p2 in
        p3 ←! Exn.index parts 3;
        let statements_match := Re.search p3 in
        p4 ←! Exn.index parts 4;
        let branches_match := Re.search p4 in
        p5 ←! Exn.index parts 5;
        let functions_match := Re.search p5 in
        lines_v ←! value_of lines_match;
        statements_v ←! value_of statements_match;
        branches_v ←! value_of branches_match;
        functions_v ←! value_of functions_match;
        Exn.ret (<[contract := Coverage lines_v statements_v branches_v functions_v]>
                   coverage_data)
      else Exn.ret coverage_data
    else Exn.ret coverage_data
  else Exn.ret coverage_data.

(** A [for] loop that threads a value through its body and stops at the
    first exception. *)
Fixpoint for_each {A S} (l : list A) (body : S → A → E S) (s : S) : E S :=
  match l with
  | [] => Exn.ret s
  | x :: l' => s' ←! body s x; for_each l' body s'
  end.

(** Lines 40 to 60: from the captured output to the dictionary. *)
Definition parseReport (coverage_output : string) : E (gmap string coverage) :=
  for_each (Str.split "010" coverage_output) parse_line ∅.

(** ** The report (lines 62 to 105) *)

(** What the script prints, one constructor per [print] statement (or pair
    of adjacent ones); colours and emoji are left out, the data of each
    line is kept. *)
Inductive event :=
  | Checking                                   (* line 23 *)
  | FailedToRun                                (* line 35 *)
  | Stderr (text : string)                     (* line 36 *)
  | ReportHeader                               (* lines 63, 64 *)
  | ContractHeader (contract : string)         (* line 72 *)
  | MetricOk (name : string) (value : number)  (* line 77 *)
  | MetricBad (name : string) (value : number) (* line 79 *)
  | SourcesHeader                              (* lines 83, 84 *)
  | NotTracked (contract : string)             (* line 89 *)
  | Status (all_100 : bool) (contract : string)(* line 94 *)
  | Rule                                       (* line 96 *)
  | CheckFailed                                (* lines 100, 101 *)
  | CheckPassed.                               (* line 104 *)

(** A statement: from what was printed so far to what is printed after it,
    and a value or an exception. *)
Definition M (A : Type) : Type := list event → list event * E A.

Module Io.

Definition ret {A} (a : A) : M A := λ out, (out, inr a).
Definition raise {A} (e : exn) : M A := λ out, (out, inl e).
Definition bind {A B} (m : M A) (k : A → M B) : M B :=
  λ out,
    match m out with
    | (out', inr a) => k a out'
    | (out', inl e) => (out', inl e)
    end.
Definition print (ev : event) : M unit := λ out, (out ++ [ev], inr tt).
Definition lift {A} (m : E A) : M A := λ out, (out, m).

(** A [for] loop threading its local variables. *)
Fixpoint for_each {A S} (l : list A) (body : S → A → M S) (s : S) : M S :=
  match l with
  | [] => ret s
  | x :: l' => bind (body s x) (for_each l' body)
  end.

End Io.

Notation "x ← m ; k" := (Io.bind m (λ x, k))
  (at level 20, m at level 100, k at level 200, only parsing).
Notation "m ;; k" := (Io.bind m (λ _, k))
  (at level 100, k at level 200, right associativity, only parsing).

(** Line 14. *)
Definition PRODUCTION_CONTRACTS : list string :=
  ["src/CollectibleCast.sol"; "src/Metadata.sol"; "src/Minter.sol";
   "src/TransferValidator.sol"; "src/Auction.sol"].

(** Lines 75 to 80: the loop over the metrics of one contract; the
    threaded variable is [all_pass]. *)
Definition check_metric (all_pass : bool) (item : string * number) : M bool :=
  let '(name, value) := item in
  if Num.eq_float value Float.hundred then
    Io.print (MetricOk name value);; Io.ret all_pass
  else
    Io.print (MetricBad name value);; Io.ret false.

(** Lines 69 to 80: the loop over the tracked contracts; the threaded
    variables are [all_pass] and [contracts_checked]. *)
Definition check_contract (coverage_data : gmap string coverage)
    (st : bool * list string) (contract : string) : M (bool * list string) :=
  let '(all_pass, contracts_checked) := st in
  if bool_decide (is_Some (coverage_data !! contract)) then
    let contracts_checked := contracts_checked ++ [contract] in
    Io.print (ContractHeader contract);;
    data ← Io.lift (Exn.getitem coverage_data contract);
    all_pass ← Io.for_each (items data) check_metric all_pass;
    Io.ret (all_pass, contracts_checked)
  else Io.ret (all_pass, contracts_checked).

(** [sorted(coverage_data.keys())] *)
Definition sorted_keys (coverage_data : gmap string coverage) : list string :=
  merge_sort String.le (map_to_list coverage_data).*1.

(** [x in l] for a list of strings. *)
Definition mem (x : string) (l : list string) : bool := bool_decide (x ∈ l).

(** [all(v == 100.0 for v in data.values())] *)
Definition all_100 (data : coverage) : bool :=
  forallb (λ v, Num.eq_float v Float.hundred) (values data).

(** Lines 87 to 94: the body of the loop over the sorted keys. *)
Definition list_source (coverage_data : gmap string coverage)
    (tracked contracts_checked : list string) (_ : unit) (contract : string)
  : M unit :=
  if Str.startswith "src/" contract
     && negb (String.eqb contract "src/Counter.sol") then
    if negb (mem contract tracked) then
      Io.print (NotTracked contract)
    else if mem contract contracts_checked then
      data ← Io.lift (Exn.getitem coverage_data contract);
      Io.print (Status (all_100 data) contract)
    else Io.ret tt
  else Io.ret tt.

(** Lines 62 to 96: the checks and the listing, for a given list of
    tracked contracts. The result is [all_pass]. *)
Definition evaluate (coverage_data : gmap string coverage)
    (tracked : list string) : M bool :=
  Io.print ReportHeader;;
  st ← Io.for_each tracked (check_contract coverage_data) (true, []);
  Io.print SourcesHeader;;
  Io.for_each (sorted_keys coverage_data)
    (list_source coverage_data tracked st.2) tt;;
  Io.print Rule;;
  Io.ret st.1.

(** Lines 98 to 105. *)
Definition final_result (all_pass : bool) : M unit :=
  if negb all_pass then
    Io.print CheckFailed;; Io.raise (SystemExit 1)
  else
    Io.print CheckPassed;; Io.raise (SystemExit 0).

(** What [subprocess.run] observes of the child process once it has
    ended. *)
Record CompletedProcess := Completed {
  returncode : Z;
  stdout : string;
  stderr : string
}.

(** Lines 26 to 37: with [check=True] a return code other than zero
    raises [CalledProcessError], which the script catches. *)
Definition run_forge (proc : CompletedProcess) : M string :=
  if returncode proc =? 0 then Io.ret (stdout proc)
  else
    Io.print FailedToRun;;
    Io.print (Stderr (stderr proc));;
    Io.raise (SystemExit 1).

(** Lines 62 to 105: the report and the exit. *)
Definition report_and_exit (coverage_data : gmap string coverage) (tracked : list string)
  : M unit :=
  all_pass ← evaluate coverage_data tracked;
  final_result all_pass.

(** [main], for a given list of tracked contracts. *)
Definition main_with (tracked : list string) (proc : CompletedProcess) : M unit :=
  Io.print Checking;;
  coverage_output ← run_forge proc;
  coverage_data ← Io.lift (parseReport coverage_output);
  report_and_exit coverage_data tracked.

Definition main : CompletedProcess → M unit := main_with PRODUCTION_CONTRACTS.

(** The exit status of the interpreter: the code of [SystemExit], 1 for
    any other exception that reaches the top, 0 at a normal end. *)
Definition exit_code {A} (r : E A) : Z :=
  match r with
  | inl (SystemExit code) => code
  | inl _ => 1
  | inr _ => 0
  end.

(** A run of the script: what it prints and its exit status. *)
Definition run_with (tracked : list string) (proc : CompletedProcess)
  : list event * Z :=
  let '(out, r) := main_with tracked proc [] in (out, exit_code r).

Definition run : CompletedProcess → list event * Z := run_with PRODUCTION_CONTRACTS.

(** * Derived notions

    What the statements below speak of: the rows of the table, the value
    of a cell, the verdict and the printed report as functions of the
    dictionary. Each is tied to the code by a lemma of the next part. *)

(** [c] occurs in [s]. *)
Fixpoint has (c : ascii) (s : string) : bool :=
  match s with
  | EmptyString => false
  | String a s' => Ascii.eqb a c || has c s'
  end.

(** The first character, if any, is not a digit. *)
Definition no_digit_head (s : string) : bool :=
  match s with
  | EmptyString => true
  | String c _ => negb (Str.isdigit c)
  end.

(** The text of a decimal literal: digits, a dot, digits, none of the two
    runs empty. *)
Definition decimal (g : string) : Prop :=
  ∃ ip fp, g = ip +:+ "." +:+ fp ∧
           Str.truthy ip = true ∧ Float.all_digits ip = true ∧
           Str.truthy fp = true ∧ Float.all_digits fp = true.

(** The pattern matches [cell] from offset [n] on, with group [g]. *)
Definition occurs_at (cell : string) (n : nat) (g : string) : Prop :=
  ∃ pre post, cell = pre +:+ g +:+ "%" +:+ post ∧
              String.length pre = n ∧ decimal g.

(** Cell [i] of a line, empty when the line has fewer cells. *)
Definition cell (line : string) (i : nat) : string :=
  nth i (Str.split "|" line) "".

Definition path_cell (line : string) : string := Str.strip (cell line 1).

(** The lines that the loop turns into an entry. *)
Definition is_data_row (line : string) : bool :=
  Str.startswith "|" line && Str.contains " | " line
  && (6 <=? length (Str.split "|" line))%nat
  && Str.truthy (path_cell line) && negb (Str.startswith "-" (path_cell line)).

(** The value that [metric] returns; [metric_total] shows that the
    second case does not arise. *)
Definition number_of (c : string) : number :=
  match metric c with
  | inr v => v
  | inl _ => PyInt 0
  end.

Definition record_of (line : string) : coverage :=
  Coverage (number_of (cell line 2)) (number_of (cell line 3))
           (number_of (cell line 4)) (number_of (cell line 5)).

(** The dictionary after a line. *)
Definition step (d : gmap string coverage) (line : string) : gmap string coverage :=
  if is_data_row line then <[path_cell line := record_of line]> d else d.

(** A stored value is the integer 0 or a float that is not negative
    (and not NaN). *)
Definition nonneg (v : number) : Prop :=
  v = PyInt 0 ∨ ∃ f, v = PyFloat f ∧ SFleb Float.zero f = true.

(** [value == 100.0] *)
Definition eq100 (v : number) : bool := Num.eq_float v Float.hundred.

(** What the loop over the metrics prints for one item. *)
Definition metric_event (item : string * number) : event :=
  if eq100 item.2 then MetricOk item.1 item.2 else MetricBad item.1 item.2.

(** What the loop over the tracked contracts prints for one contract. *)
Definition contract_events (d : gmap string coverage) (c : string) : list event :=
  match d !! c with
  | Some data => ContractHeader c :: map metric_event (items data)
  | None => []
  end.

(** A tracked contract passes when it is absent or all its metrics are
    100.0. *)
Definition contract_ok (d : gmap string coverage) (c : string) : bool :=
  match d !! c with
  | Some data => all_100 data
  | None => true
  end.

(** [contracts_checked] after the first loop. *)
Definition checked (d : gmap string coverage) (tracked : list string) : list string :=
  filter (λ c, is_Some (d !! c)) tracked.

(** What the listing prints for one key. *)
Definition source_events (d : gmap string coverage)
    (tracked contracts_checked : list string) (c : string) : list event :=
  if Str.startswith "src/" c && negb (String.eqb c "src/Counter.sol") then
    if negb (mem c tracked) then [NotTracked c]
    else if mem c contracts_checked then
      match d !! c with
      | Some data => [Status (all_100 data) c]
      | None => []
      end
    else []
  else [].

(** The value of [all_pass] after the first loop. *)
Definition verdict (d : gmap string coverage) (tracked : list string) : bool :=
  forallb (contract_ok d) tracked.

(** Everything that [evaluate] prints. *)
Definition breakdown (d : gmap string coverage) (tracked : list string) : list event :=
  [ReportHeader] ++ flat_map (contract_events d) tracked
  ++ [SourcesHeader]
  ++ flat_map (source_events d tracked (checked d tracked)) (sorted_keys d)
  ++ [Rule].

(** ** The specification's wording, for comparison with the code *)

Module Spec.

(** A data row as the specification draws it:
    [| <label> | <file> | <lines%> | <statements%> | <branches%> | <functions%> | ...]. *)
Definition table_row (label file l s b f rest : string) : string :=
  "| " +:+ label +:+ " | " +:+ file +:+ " | " +:+ l +:+ " | " +:+ s
  +:+ " | " +:+ b +:+ " | " +:+ f +:+ " |" +:+ rest.

(** The line has a delimiter that is not its first character. *)
Definition interior_delimiter (line : string) : bool :=
  match line with
  | EmptyString => false
  | String _ rest => has "|" rest
  end.

(** The lines that the specification calls data rows. *)
Definition data_row (line : string) : bool :=
  Str.startswith "|" line && interior_delimiter line
  && (6 <=? length (Str.split "|" line))%nat
  && Str.truthy (path_cell line) && negb (Str.startswith "-" (path_cell line)).

(** A percentage between 0 and 100. *)
Definition in_range (v : number) : bool :=
  match v with
  | PyInt z => (0 <=? z) && (z <=? 100)
  | PyFloat f => SFleb Float.zero f && SFleb f Float.hundred
  end.

End Spec.

(** A row as [forge] prints it: the path in the first cell, then the four
    percentages; [tail] is empty or starts the next delimiter. *)
Definition forge_row (file l s b f tail : string) : string :=
  "|" +:+ file +:+ "|" +:+ l +:+ "|" +:+ s +:+ "|" +:+ b +:+ "|" +:+ f +:+ tail.

(** ** What a stored value is extracted from *)

(** [v] is the value of the first decimal percentage of the cell [c]: the
    float of the text that the pattern matches at the least offset where
    it matches, or the integer 0 when it matches nowhere. *)
Definition first_match_or_zero (c : string) (v : number) : Prop :=
  (∃ n g f,
     occurs_at c n g
     ∧ (∀ g', occurs_at c n g' → g' = g)
     ∧ (∀ m g', (m < n)%nat → ¬ occurs_at c m g')
     ∧ Float.of_string g = Some f ∧ v = PyFloat f)
  ∨ ((∀ n g, ¬ occurs_at c n g) ∧ v = PyInt 0).

(** The four values of the record [r] are extracted from the cells 2 to 5
    of [line]. *)
Definition extracted_from (line : string) (r : coverage) : Prop :=
  first_match_or_zero (cell line 2) (lines r)
  ∧ first_match_or_zero (cell line 3) (statements r)
  ∧ first_match_or_zero (cell line 4) (branches r)
  ∧ first_match_or_zero (cell line 5) (functions r).

(** ** What the printed lines name *)

(** The contract that a printed line is about, if any. *)
Definition event_contract (e : event) : option string :=
  match e with
  | ContractHeader c | NotTracked c | Status _ c => Some c
  | _ => None
  end.

(** The contracts of the section headers, in the order printed. *)
Definition header_names (evs : list event) : list string :=
  omap (λ e, match e with ContractHeader c => Some c | _ => None end) evs.

(** The contracts of the listing, in the order printed. *)
Definition listed_names (evs : list event) : list string :=
  omap (λ e, match e with NotTracked c | Status _ c => Some c | _ => None end) evs.

(** A string without a blank in front. *)
Definition no_blank_head (s : string) : bool :=
  match s with
  | EmptyString => true
  | String c _ => negb (Str.isspace c)
  end.

(** The line feed, as a string. *)
Definition nl : string := String "010" "".

(** * Properties *)

(** ** Strings *)

#[global] Arguments Str.isdigit : simpl never.
#[global] Arguments Str.isspace : simpl never.

Lemma sapp_nil_l (s : string) : "" +:+ s = s.
Proof. reflexivity. Qed.

Lemma sapp_cons (a : ascii) (s t : string) : String a s +:+ t = String a (s +:+ t).
Proof. reflexivity. Qed.

Lemma sapp_nil_r (s : string) : s +:+ "" = s.
Proof. induction s as [|a s IH]; [done|]. by rewrite sapp_cons, IH. Qed.

Lemma sapp_assoc (a b c : string) : (a +:+ b) +:+ c = a +:+ b +:+ c.
Proof. induction a as [|x a IH]; [done|]. by rewrite !sapp_cons, IH. Qed.

Lemma slength_app (s t : string) :
  String.length (s +:+ t) = (String.length s + String.length t)%nat.
Proof. induction s as [|a s IH]; [done|]. rewrite sapp_cons. cbn. by rewrite IH. Qed.

Ltac norm_app := rewrite ?sapp_assoc, ?sapp_cons, ?sapp_nil_l.

Lemma split_not_nil sep s : Str.split sep s ≠ [].
Proof.
  destruct s as [|c s]; cbn; [done|].
  destruct (Ascii.eqb c sep); [done|]. by destruct (Str.split sep s).
Qed.

(** Splitting at the first separator. *)
Lemma split_app sep a b :
  has sep a = false →
  Str.split sep (a +:+ String sep b) = a :: Str.split sep b.
Proof.
  induction a as [|c a IH]; intros H.
  - rewrite sapp_nil_l. cbn. by rewrite Ascii.eqb_refl.
  - rewrite sapp_cons. cbn in *.
    apply orb_false_iff in H as [Hc Ha]. rewrite Hc, (IH Ha). done.
Qed.

Lemma split_none sep a : has sep a = false → Str.split sep a = [a].
Proof.
  induction a as [|c a IH]; cbn; intros H; [done|].
  apply orb_false_iff in H as [Hc Ha]. by rewrite Hc, (IH Ha).
Qed.

Lemma startswith_app p s : Str.startswith p (p +:+ s) = true.
Proof.
  induction p as [|a p IH]; [done|].
  rewrite sapp_cons. cbn. by rewrite Ascii.eqb_refl.
Qed.

Lemma startswith_inv p s :
  Str.startswith p s = true → ∃ t, s = p +:+ t.
Proof.
  revert s. induction p as [|a p IH]; intros s H; cbn in *; [by eexists|].
  destruct s as [|b s]; [done|].
  destruct (Ascii.eqb_spec a b) as [->|]; [|done].
  destruct (IH _ H) as [t ->]. by eexists.
Qed.

(** [sub in s] holds exactly when [s] is [pre + sub + post]. *)
Lemma contains_iff sub s :
  Str.contains sub s = true ↔ ∃ pre post, s = pre +:+ sub +:+ post.
Proof.
  split.
  - induction s as [|a s IH]; cbn.
    + intros H. apply startswith_inv in H as [t ->]. by exists "", t.
    + intros [H|H]%orb_true_iff.
      * apply startswith_inv in H as [t ->]. by exists "", t.
      * destruct (IH H) as (pre & post & ->). by exists (String a pre), post.
  - intros (pre & post & ->). induction pre as [|a pre IH].
    + rewrite sapp_nil_l. destruct (sub +:+ post) eqn:E.
      * destruct sub; [done|discriminate].
      * cbn [Str.contains]. rewrite <- E. by rewrite startswith_app.
    + rewrite sapp_cons. cbn [Str.contains]. rewrite IH. apply orb_true_r.
Qed.

(** ** The regular expression *)

Lemma all_digits_cons c s :
  Float.all_digits (String c s) = Str.isdigit c && Float.all_digits s.
Proof. done. Qed.

Lemma all_digits_app s t :
  Float.all_digits (s +:+ t) = Float.all_digits s && Float.all_digits t.
Proof.
  induction s as [|c s IH]; [done|].
  rewrite sapp_cons, !all_digits_cons, IH. by rewrite andb_assoc.
Qed.

Lemma span_digits_spec s d r :
  Re.span_digits s = (d, r) →
  s = d +:+ r ∧ Float.all_digits d = true ∧ no_digit_head r = true.
Proof.
  revert d r. induction s as [|c s IH]; cbn; intros d r H.
  - by inversion H.
  - destruct (Str.isdigit c) eqn:Hc.
    + destruct (Re.span_digits s) as [d' r'] eqn:Hs. inversion H; subst.
      destruct (IH _ _ eq_refl) as (-> & Hd & Hr).
      rewrite all_digits_cons, Hc, Hd. done.
    + inversion H; subst. cbn. by rewrite Hc.
Qed.

Lemma span_digits_app d r :
  Float.all_digits d = true → no_digit_head r = true →
  Re.span_digits (d +:+ r) = (d, r).
Proof.
  induction d as [|c d IH]; intros Hd Hr.
  - rewrite sapp_nil_l. destruct r as [|c r]; [done|]. cbn in *.
    by destruct (Str.isdigit c).
  - rewrite all_digits_cons in Hd. apply andb_true_iff in Hd as [Hc Hd].
    rewrite sapp_cons. cbn. by rewrite Hc, (IH Hd Hr).
Qed.

Lemma match_here_iff s g :
  Re.match_here s = Some g ↔ occurs_at s 0 g.
Proof.
  unfold Re.match_here, occurs_at, decimal. split.
  - destruct (Re.span_digits s) as [d r] eqn:H1.
    apply span_digits_spec in H1 as (-> & Hd & _).
    destruct d as [|a ip]; [done|]. destruct r as [|c r]; [done|].
    destruct (Ascii.eqb_spec c ".") as [->|Hne];
      [|by destruct c as [[] [] [] [] [] [] [] []]].
    destruct (Re.span_digits r) as [d2 r2] eqn:H2.
    apply span_digits_spec in H2 as (-> & Hd2 & _).
    destruct d2 as [|b fp]; [done|]. destruct r2 as [|c2 r2]; [done|].
    destruct (Ascii.eqb_spec c2 "%") as [->|Hne];
      [|by destruct c2 as [[] [] [] [] [] [] [] []]].
    intros [= <-]. exists "", r2. split_and!; [|done|].
    + by norm_app.
    + by exists (String a ip), (String b fp).
  - intros (pre & post & -> & Hpre & ip & fp & -> & Hi & Hdi & Hf & Hdf).
    destruct pre; [|done]. rewrite sapp_nil_l, !sapp_assoc.
    rewrite (span_digits_app ip); [|done..].
    destruct ip as [|a ip]; [done|]. rewrite sapp_cons, sapp_nil_l.
    rewrite (span_digits_app fp); [|done..].
    by destruct fp as [|b fp].
Qed.

(** [search] returns the match at the least offset at which the pattern
    matches, and [None] only when it matches nowhere. *)
Lemma search_Some cell g :
  Re.search cell = Some g →
  ∃ n, occurs_at cell n g ∧ ∀ m g', (m < n)%nat → ¬ occurs_at cell m g'.
Proof.
  induction cell as [|c cell IH]; cbn [Re.search].
  - destruct (Re.match_here "") eqn:H; [|done].
    intros [= ->]. exists 0%nat. split; [by apply match_here_iff|lia].
  - destruct (Re.match_here (String c cell)) eqn:H.
    + intros [= ->]. exists 0%nat. split; [by apply match_here_iff|lia].
    + intros Hs. destruct (IH Hs) as (n & (pre & post & -> & Hn & Hg) & Hmin).
      exists (S n). split.
      * exists (String c pre), post. cbn. by rewrite Hn.
      * intros m g' Hm (pre' & post' & Heq & Hlen & Hg').
        destruct pre' as [|c' pre'].
        -- assert (Re.match_here (String c (pre +:+ g +:+ "%" +:+ post)) = Some g')
             as Hc; [|congruence].
           apply match_here_iff. exists "", post'. done.
        -- cbn in Heq, Hlen. inversion Heq; subst.
           apply (Hmin (String.length pre') g'); [lia|].
           exists pre', post'. done.
Qed.

Lemma search_None cell :
  Re.search cell = None → ∀ n g, ¬ occurs_at cell n g.
Proof.
  induction cell as [|c cell IH]; cbn [Re.search].
  - destruct (Re.match_here "") eqn:H; [done|]. intros _ n g Hocc.
    destruct Hocc as (pre & post & Heq & _ & ip & fp & -> & _).
    destruct pre; [|done]. destruct ip; discriminate.
  - destruct (Re.match_here (String c cell)) eqn:H; [done|].
    intros Hs n g (pre & post & Heq & Hlen & Hg).
    destruct pre as [|c' pre].
    + assert (Re.match_here (String c cell) = Some g) as Hc; [|congruence].
      apply match_here_iff. exists "", post. done.
    + cbn in Heq. inversion Heq; subst.
      apply (IH Hs (String.length pre) g). by exists pre, post.
Qed.

(** At a given offset the pattern matches in one way only. *)
Lemma sapp_same_length_inv (p p' x x' : string) :
  p +:+ x = p' +:+ x' → String.length p = String.length p' → p = p' ∧ x = x'.
Proof.
  revert p'. induction p as [|a p IH]; intros [|a' p'] Heq Hlen; try done.
  rewrite !sapp_cons in Heq. injection Heq as -> Heq. cbn in Hlen.
  destruct (IH p' Heq) as [-> ->]; [lia|done].
Qed.

Lemma occurs_at_unique c n g g' : occurs_at c n g → occurs_at c n g' → g = g'.
Proof.
  intros (pre & post & -> & Hn & Hg) (pre' & post' & Heq & Hn' & Hg').
  apply sapp_same_length_inv in Heq as [_ Heq]; [|congruence].
  assert (Re.match_here (g +:+ "%" +:+ post) = Some g) as H1.
  { apply match_here_iff. by exists "", post. }
  assert (Re.match_here (g +:+ "%" +:+ post) = Some g') as H2.
  { apply match_here_iff. exists "", post'. by rewrite Heq. }
  congruence.
Qed.

(** ** Floats *)

(** Zero, a positive number or plus infinity: what [0.0 <= f] says. *)
Lemma SFleb_zero_iff f :
  SFleb Float.zero f = true ↔
  (∃ s, f = S754_zero s) ∨ f = S754_infinity false ∨ ∃ m e, f = S754_finite false m e.
Proof.
  unfold SFleb, Float.zero. destruct f as [s|[]| |[] m e]; cbn.
  all: split; [try done; eauto 6|].
  all: by intros [[? [=]]|[[=]|(? & ? & [=])]].
Qed.

Lemma iter_pos_inv {A} (P : A → Prop) (f : A → A) :
  (∀ x, P x → P (f x)) → ∀ p x, P x → P (SpecFloat.iter_pos f p x).
Proof.
  intros Hf p. induction p as [p IH|p IH|]; intros x Hx; cbn; auto.
Qed.

Lemma shr_1_nonneg mrs : 0 ≤ shr_m mrs → 0 ≤ shr_m (shr_1 mrs).
Proof.
  destruct mrs as [m r s]. cbn. intros Hm.
  destruct m as [|[p|p|]|p]; cbn; lia.
Qed.

Lemma shr_fexp_nonneg m e l :
  0 ≤ m → 0 ≤ shr_m (shr_fexp Float.prec Float.emax m e l).1.
Proof.
  intros Hm. unfold shr_fexp, shr.
  assert (0 ≤ shr_m (shr_record_of_loc m l)) as H0.
  { by destruct l as [|[]]. }
  destruct (_ - e) as [|p|p]; cbn [fst]; [done| |done].
  apply (iter_pos_inv (λ x, 0 ≤ shr_m x)); [apply shr_1_nonneg|done].
Qed.

Lemma round_nearest_even_nonneg m l : 0 ≤ m → 0 ≤ round_nearest_even m l.
Proof.
  intros Hm. destruct l as [|[]]; cbn; try done; [|lia].
  destruct (Z.even m); lia.
Qed.

Lemma binary_round_aux_nonneg m e l :
  0 ≤ m →
  SFleb Float.zero (binary_round_aux Float.prec Float.emax false m e l) = true.
Proof.
  intros Hm. unfold binary_round_aux.
  pose proof (shr_fexp_nonneg m e l Hm) as H1.
  destruct (shr_fexp _ _ m e l) as [mrs' e'] eqn:E1. cbn [fst] in H1.
  pose proof (shr_fexp_nonneg _ e' loc_Exact
                (round_nearest_even_nonneg _ (loc_of_shr_record mrs') H1)) as H2.
  destruct (shr_fexp _ _ (round_nearest_even _ _) e' loc_Exact)
    as [mrs'' e''] eqn:E2. cbn [fst] in H2.
  destruct (shr_m mrs'') as [|p|p]; [done| |lia].
  by destruct (_ <=? _).
Qed.

(** The float of a ratio is never negative and never NaN. *)
Lemma of_ratio_nonneg n d : SFleb Float.zero (Float.of_ratio n d) = true.
Proof.
  unfold Float.of_ratio. destruct n as [|n|n]; [done| |done].
  unfold SFdiv_core_binary.
  set (m' := match _ - _ with Z0 => _ | Zpos _ => _ | Zneg _ => _ end).
  assert (0 ≤ m') as Hm'.
  { subst m'. destruct (_ - _) as [|s|s]; [done| |done].
    rewrite Z.shiftl_mul_pow2 by done. apply Z.mul_nonneg_nonneg; [done|].
    apply Z.pow_nonneg. lia. }
  pose proof (Z.div_pos m' (Z.pos d) Hm' eq_refl) as Hq.
  unfold Z.div in Hq. destruct (Z.div_eucl m' (Z.pos d)) as [q r].
  by apply binary_round_aux_nonneg.
Qed.

(** [float] accepts every decimal literal. *)
Lemma of_string_decimal g :
  decimal g → ∃ f, Float.of_string g = Some f ∧ SFleb Float.zero f = true.
Proof.
  intros (ip & fp & -> & Hi & Hdi & Hf & Hdf). unfold Float.of_string.
  rewrite (span_digits_app ip); [|done..].
  destruct ip as [|a ip]; [done|]. rewrite sapp_cons, sapp_nil_l.
  rewrite Hf, Hdf. eexists. split; [done|]. apply of_ratio_nonneg.
Qed.

(** ** Parsing *)

Lemma metric_cases c :
  match Re.search c with
  | Some g => ∃ f, Float.of_string g = Some f ∧ SFleb Float.zero f = true
                   ∧ metric c = inr (PyFloat f)
  | None => metric c = inr (PyInt 0)
  end.
Proof.
  unfold metric, value_of. destruct (Re.search c) as [g|] eqn:Hs; [|done].
  apply search_Some in Hs as (n & (pre & post & _ & _ & Hg) & _).
  destruct (of_string_decimal g Hg) as (f & Hf & Hle).
  exists f. unfold Exn.float. by rewrite Hf.
Qed.

Lemma metric_total c : metric c = inr (number_of c).
Proof.
  unfold number_of. pose proof (metric_cases c) as H.
  destruct (Re.search c); [|by rewrite H].
  destruct H as (f & _ & _ & ->). done.
Qed.

Lemma number_of_nonneg c : nonneg (number_of c).
Proof.
  unfold number_of. pose proof (metric_cases c) as H.
  destruct (Re.search c).
  - destruct H as (f & _ & Hle & ->). right. eauto.
  - rewrite H. by left.
Qed.

Lemma index_nth (l : list string) i :
  (i < length l)%nat → Exn.index l i = inr (nth i l "").
Proof.
  intros Hi. unfold Exn.index.
  destruct (l !! i) as [x|] eqn:E.
  - by rewrite (nth_lookup_Some _ _ _ _ E).
  - apply lookup_ge_None in E. lia.
Qed.

(** The loop body never raises, and does what [step] says. *)
Lemma parse_line_step d line : parse_line d line = inr (step d line).
Proof.
  unfold parse_line, step, is_data_row, path_cell, record_of, cell.
  destruct (Str.startswith "|" line && Str.contains " | " line); [|done].
  cbn [andb]. destruct (6 <=? _)%nat eqn:Hlen; [|done].
  apply Nat.leb_le in Hlen. cbn [andb].
  rewrite index_nth by lia. cbn [Exn.bind].
  destruct (Str.truthy _ && negb _); [|done].
  rewrite !index_nth by lia. cbn [Exn.bind]. cbv zeta.
  fold (metric (nth 2 (Str.split "|" line) "")).
  fold (metric (nth 3 (Str.split "|" line) "")).
  fold (metric (nth 4 (Str.split "|" line) "")).
  fold (metric (nth 5 (Str.split "|" line) "")).
  rewrite !metric_total. done.
Qed.

Lemma for_each_fold (ls : list string) d :
  for_each ls parse_line d = inr (fold_left step ls d).
Proof.
  revert d. induction ls as [|l ls IH]; intros d; [done|].
  cbn [for_each fold_left]. rewrite parse_line_step. cbn [Exn.bind]. apply IH.
Qed.

(** [parseReport] never raises. *)
Lemma parseReport_fold text :
  parseReport text = inr (fold_left step (Str.split "010" text) ∅).
Proof. apply for_each_fold. Qed.

(** A property of the records that holds of every row holds of every
    entry of the dictionary. *)
Lemma fold_step_inv (P : coverage → Prop) ls d :
  (∀ line, P (record_of line)) →
  map_Forall (λ _, P) d → map_Forall (λ _, P) (fold_left step ls d).
Proof.
  intros HP. revert d. induction ls as [|l ls IH]; intros d Hd; [done|].
  cbn [fold_left]. apply IH. unfold step.
  destruct (is_data_row l); [|done]. by apply map_Forall_insert_2.
Qed.

(** Lines that do not carry the path [k] leave its entry alone. *)
Lemma fold_step_other k ls d :
  Forall (λ l, is_data_row l = true → path_cell l ≠ k) ls →
  fold_left step ls d !! k = d !! k.
Proof.
  intros H. revert d. induction H as [|l ls Hl _ IH]; intros d; [done|].
  cbn [fold_left]. rewrite IH. unfold step.
  destruct (is_data_row l); [|done]. rewrite lookup_insert_ne; auto.
Qed.

(** The entry of a path is the record of the last row that carries it. *)
Lemma fold_step_last pre line post d :
  is_data_row line = true →
  Forall (λ l, is_data_row l = true → path_cell l ≠ path_cell line) post →
  fold_left step (pre ++ line :: post) d !! path_cell line = Some (record_of line).
Proof.
  intros Hrow Hpost. rewrite fold_left_app. cbn [fold_left].
  rewrite fold_step_other by done. unfold step at 1. rewrite Hrow.
  apply lookup_insert_eq.
Qed.

(** ** The report *)

Lemma check_metric_run ap item out :
  check_metric ap item out
  = (out ++ [metric_event item], inr (ap && eq100 item.2)).
Proof.
  destruct item as [name v]. unfold check_metric, metric_event, eq100. cbn.
  destruct (Num.eq_float v Float.hundred); cbn.
  - by rewrite andb_true_r.
  - by rewrite andb_false_r.
Qed.

Lemma check_metrics_run l ap out :
  Io.for_each l check_metric ap out
  = (out ++ map metric_event l, inr (ap && forallb (λ it, eq100 it.2) l)).
Proof.
  revert ap out. induction l as [|it l IH]; intros ap out; cbn.
  - by rewrite app_nil_r, andb_true_r.
  - unfold Io.bind. rewrite check_metric_run, IH.
    by rewrite <- app_assoc, andb_assoc.
Qed.

Lemma all_100_items data :
  forallb (λ it : string * number, eq100 it.2) (items data) = all_100 data.
Proof. by destruct data. Qed.

Lemma check_contract_run d ap cs c out :
  check_contract d (ap, cs) c out
  = (out ++ contract_events d c,
     inr (ap && contract_ok d c, cs ++ checked d [c])).
Proof.
  unfold check_contract, contract_events, contract_ok, checked.
  cbn [filter list_filter]. destruct (d !! c) as [data|] eqn:E.
  - rewrite bool_decide_eq_true_2 by eauto.
    rewrite decide_True by eauto.
    unfold Io.bind, Io.print, Io.lift, Io.ret, Exn.getitem, Exn.ret.
    rewrite E. cbv beta iota.
    rewrite check_metrics_run, all_100_items.
    by rewrite <- app_assoc.
  - rewrite bool_decide_eq_false_2 by (intros [? [=]]).
    rewrite decide_False by (intros [? [=]]). cbn.
    by rewrite !app_nil_r, andb_true_r.
Qed.

Lemma check_contracts_run d l ap cs out :
  Io.for_each l (check_contract d) (ap, cs) out
  = (out ++ flat_map (contract_events d) l,
     inr (ap && forallb (contract_ok d) l, cs ++ checked d l)).
Proof.
  revert ap cs out. induction l as [|c l IH]; intros ap cs out.
  - cbn. by rewrite !app_nil_r, andb_true_r.
  - cbn [Io.for_each flat_map forallb]. unfold Io.bind at 1.
    rewrite check_contract_run, IH.
    rewrite <- !app_assoc, andb_assoc. unfold checked.
    change (c :: l) with ([c] ++ l). by rewrite filter_app.
Qed.

Lemma list_source_run d tracked cs c out :
  is_Some (d !! c) →
  list_source d tracked cs tt c out
  = (out ++ source_events d tracked cs c, inr tt).
Proof.
  intros [data Hc]. unfold list_source, source_events.
  destruct (_ && _); [|by cbn; rewrite app_nil_r].
  destruct (negb _); [done|].
  destruct (mem c cs); [|by cbn; rewrite app_nil_r].
  unfold Io.bind, Io.lift, Exn.getitem. by rewrite Hc.
Qed.

Lemma list_sources_run d tracked cs keys out :
  Forall (λ k, is_Some (d !! k)) keys →
  Io.for_each keys (list_source d tracked cs) tt out
  = (out ++ flat_map (source_events d tracked cs) keys, inr tt).
Proof.
  intros H. revert out. induction H as [|k keys Hk _ IH]; intros out.
  - cbn. by rewrite app_nil_r.
  - cbn [Io.for_each flat_map]. unfold Io.bind at 1.
    rewrite (list_source_run _ _ _ _ _ Hk), IH. by rewrite <- app_assoc.
Qed.

(** The sorted keys are the keys. *)
Lemma elem_of_sorted_keys d k : k ∈ sorted_keys d ↔ is_Some (d !! k).
Proof.
  unfold sorted_keys. rewrite merge_sort_Permutation.
  rewrite list_elem_of_fmap. split.
  - intros ([k' data] & -> & H%elem_of_map_to_list). eauto.
  - intros [data H]. exists (k, data). by rewrite elem_of_map_to_list.
Qed.

(** [evaluate] never raises; what it adds to the output and what it
    returns depend on the dictionary and the tracked list only. *)
Lemma evaluate_run d tracked out :
  evaluate d tracked out = (out ++ breakdown d tracked, inr (verdict d tracked)).
Proof.
  unfold evaluate, breakdown, verdict.
  unfold Io.bind at 1. unfold Io.print at 1.
  unfold Io.bind at 1. rewrite check_contracts_run.
  unfold Io.bind at 1. unfold Io.print at 1.
  unfold Io.bind at 1. rewrite list_sources_run.
  - cbn. by rewrite <- !app_assoc.
  - apply Forall_forall. intros k. apply elem_of_sorted_keys.
Qed.

(** The verdict, spelled out. *)
Lemma verdict_true_iff d tracked :
  verdict d tracked = true ↔
  ∀ c data, c ∈ tracked → d !! c = Some data →
    eq100 (lines data) = true ∧ eq100 (statements data) = true ∧
    eq100 (branches data) = true ∧ eq100 (functions data) = true.
Proof.
  unfold verdict. rewrite forallb_forall. split.
  - intros H c data Hc%list_elem_of_In Hd. specialize (H c Hc).
    unfold contract_ok in H. rewrite Hd in H. destruct data as [l s b f].
    unfold all_100 in H. cbn in H. fold (eq100 l) (eq100 s) (eq100 b) (eq100 f) in H.
    cbn. destruct (eq100 l), (eq100 s), (eq100 b), (eq100 f); done.
  - intros H c Hc%list_elem_of_In. unfold contract_ok.
    destruct (d !! c) as [data|] eqn:Hd; [|done].
    destruct (H c data Hc Hd) as (Hl & Hs & Hb & Hf). destruct data as [l s b f].
    unfold all_100. cbn in *. fold (eq100 l) (eq100 s) (eq100 b) (eq100 f).
    by rewrite Hl, Hs, Hb, Hf.
Qed.

Lemma report_and_exit_run d tracked out :
  report_and_exit d tracked out
  = (out ++ breakdown d tracked
         ++ [if verdict d tracked then CheckPassed else CheckFailed],
     inl (SystemExit (if verdict d tracked then 0 else 1))).
Proof.
  unfold report_and_exit, Io.bind. rewrite evaluate_run. unfold final_result.
  destruct (verdict d tracked); cbn; by rewrite <- app_assoc.
Qed.

Lemma verdict_ext d1 d2 tracked :
  (∀ c, c ∈ tracked → d1 !! c = d2 !! c) →
  verdict d1 tracked = verdict d2 tracked.
Proof.
  intros H. unfold verdict. induction tracked as [|c l IH]; [done|].
  cbn [forallb]. rewrite IH by (intros; apply H; set_solver).
  unfold contract_ok. rewrite (H c) by set_solver. done.
Qed.

Lemma eq100_iff v :
  eq100 v = true ↔ v = PyFloat Float.hundred ∨ v = PyInt 100.
Proof.
  unfold eq100, Num.eq_float. destruct v as [z|g]; split.
  - unfold Num.int_eq_float, Float.hundred. cbn [cond_Zopp Z.leb Z.compare].
    change (2 ^ (- (-46))) with 70368744177664. intros H%Z.eqb_eq.
    right. f_equal. lia.
  - intros [[=]|[= ->]]. reflexivity.
  - unfold SFeqb, Float.hundred, SFcompare.
    destruct g as [s|[]| |[] m e]; try discriminate.
    destruct (Z.compare_spec e (-46)) as [->| |]; try discriminate.
    destruct (Pos.compare_cont Eq m 7036874417766400) eqn:Hc; try discriminate.
    apply Pos.compare_eq in Hc as ->. by left.
  - intros [[= ->]|[=]]. reflexivity.
Qed.

(** A run, spelled out. *)
Lemma run_with_eq tracked proc :
  run_with tracked proc
  = if returncode proc =? 0 then
      let d := fold_left step (Str.split "010" (stdout proc)) ∅ in
      ([Checking] ++ breakdown d tracked
         ++ [if verdict d tracked then CheckPassed else CheckFailed],
       if verdict d tracked then 0 else 1)
    else ([Checking; FailedToRun; Stderr (stderr proc)], 1).
Proof.
  unfold run_with, main_with, run_forge.
  unfold Io.bind at 1. unfold Io.print at 1. unfold Io.bind at 1.
  destruct (returncode proc =? 0).
  - unfold Io.ret at 1. unfold Io.bind at 1, Io.lift.
    rewrite parseReport_fold. by rewrite report_and_exit_run.
  - reflexivity.
Qed.

(** The cells of a row as [forge] prints it. *)
Lemma forge_row_split file l s b f tail :
  has "|" file = false → has "|" l = false → has "|" s = false →
  has "|" b = false → has "|" f = false →
  tail = "" ∨ Str.startswith "|" tail = true →
  ∃ rest, Str.split "|" (forge_row file l s b f tail)
          = "" :: file :: l :: s :: b :: f :: rest.
Proof.
  intros Hfile Hl Hs Hb Hf Htail. unfold forge_row.
  rewrite sapp_cons, sapp_nil_l. cbn [Str.split]. rewrite Ascii.eqb_refl.
  rewrite !(sapp_cons "|" ""), !sapp_nil_l.
  rewrite !split_app by done.
  destruct Htail as [->|Htail].
  - exists []. by rewrite sapp_nil_r, split_none.
  - apply startswith_inv in Htail as [t ->].
    rewrite sapp_cons, sapp_nil_l, split_app by done. eauto.
Qed.

Lemma forge_row_cells file l s b f tail :
  has "|" file = false → has "|" l = false → has "|" s = false →
  has "|" b = false → has "|" f = false →
  tail = "" ∨ Str.startswith "|" tail = true →
  Str.contains " | " (forge_row file l s b f tail) = true →
  Str.strip file ≠ "" → Str.startswith "-" (Str.strip file) = false →
  is_data_row (forge_row file l s b f tail) = true
  ∧ path_cell (forge_row file l s b f tail) = Str.strip file
  ∧ record_of (forge_row file l s b f tail)
    = Coverage (number_of l) (number_of s) (number_of b) (number_of f).
Proof.
  intros Hfile Hl Hs Hb Hf Htail Hsp Hne Hdash.
  destruct (forge_row_split file l s b f tail) as [rest Hsplit]; [done..|].
  unfold is_data_row, path_cell, record_of, cell. rewrite Hsplit, Hsp.
  cbn [nth length]. rewrite Hdash.
  assert (Str.startswith "|" (forge_row file l s b f tail) = true) as ->
    by apply (startswith_app "|").
  destruct (Str.strip file); [done|]. done.
Qed.

Lemma not_tracked_in_breakdown d tracked c :
  is_Some (d !! c) → Str.startswith "src/" c = true →
  c ≠ "src/Counter.sol" → c ∉ tracked →
  NotTracked c ∈ breakdown d tracked.
Proof.
  intros Hin Hsrc Hcounter Hnot. unfold breakdown.
  rewrite !elem_of_app. right. right. right. left.
  apply list_elem_of_In, in_flat_map. exists c. split.
  - by apply list_elem_of_In, elem_of_sorted_keys.
  - unfold source_events. rewrite Hsrc.
    assert (String.eqb c "src/Counter.sol" = false) as ->
      by by apply String.eqb_neq.
    unfold mem. rewrite bool_decide_eq_false_2 by done. cbn. auto.
Qed.

(** The listing goes through the keys in increasing order. *)
Lemma sorted_keys_sorted d : Sorted String.le (sorted_keys d).
Proof. apply (Sorted_merge_sort String.le). Qed.

(** ** The primitives on concrete inputs *)

Example split_row : Str.split "|" "| a | b |" = [""; " a "; " b "; ""].
Proof. reflexivity. Qed.

Example split_no_delimiter : Str.split "|" "ab" = ["ab"].
Proof. reflexivity. Qed.

Example strip_blanks : Str.strip (String "009" "  a b  ") = "a b".
Proof. reflexivity. Qed.

Example search_leftmost : Re.search " 1.2.35% (3/4) 100.00%" = Some "2.35".
Proof. reflexivity. Qed.

Example search_nothing : Re.search "12% .5% 3.% 4.5" = None.
Proof. reflexivity. Qed.

Example hundred_literal : Float.of_string "100.0" = Some Float.hundred.
Proof. vm_compute. reflexivity. Qed.

Example float_rounds_to_nearest :
  Float.of_string "0.1" = Some (S754_finite false 7205759403792794 (-56))
  ∧ Float.of_string "100.000000000000001" = Some Float.hundred.
Proof. split; vm_compute; reflexivity. Qed.

(** A report where one tracked contract misses a branch: the run flags
    that metric and exits with 1. *)
Example run_with_one_failing_metric :
  run (Completed 0
         "| src/Auction.sol | 100.00% (12/12) | 100.00% (15/15) | 92.50% (37/40) | 100.00% (4/4) |"
         "")
  = ([Checking; ReportHeader; ContractHeader "src/Auction.sol";
      MetricOk "lines" (PyFloat Float.hundred);
      MetricOk "statements" (PyFloat Float.hundred);
      MetricBad "branches" (PyFloat (S754_finite false 6509108836433920 (-46)));
      MetricOk "functions" (PyFloat Float.hundred);
      SourcesHeader; Status false "src/Auction.sol"; Rule; CheckFailed], 1).
Proof. vm_compute. reflexivity. Qed.

(** A report without any tracked contract: the run passes. *)
Example run_without_tracked_contracts :
  run (Completed 0 "| test/Mock.sol | 10.00% (1/10) | 0.00% (0/3) | 0.00% (0/1) | 0.00% (0/2) |" "")
  = ([Checking; ReportHeader; SourcesHeader; Rule; CheckPassed], 0).
Proof. vm_compute. reflexivity. Qed.

(** The value of a cell is the one of its first match, or zero. *)
Lemma number_of_first_match c : first_match_or_zero c (number_of c).
Proof.
  unfold first_match_or_zero, number_of. pose proof (metric_cases c) as Hm.
  destruct (Re.search c) as [g|] eqn:Hs.
  - destruct Hm as (f & Hf & _ & ->). left.
    destruct (search_Some c g Hs) as (n & Hocc & Hmin).
    exists n, g, f. split_and!; try done.
    intros g' Hocc'. by apply (occurs_at_unique c n).
  - rewrite Hm. right. split; [by apply search_None|done].
Qed.

Lemma record_of_extracted line : extracted_from line (record_of line).
Proof.
  unfold extracted_from, record_of. cbn [lines statements branches functions].
  split_and!; apply number_of_first_match.
Qed.

(** Every entry of the dictionary is the record of a data row, the last
    one that carries its path. *)
Lemma fold_step_origin ls k r :
  fold_left step ls ∅ !! k = Some r →
  ∃ pre line post,
    ls = pre ++ line :: post ∧ is_data_row line = true
    ∧ path_cell line = k ∧ r = record_of line
    ∧ Forall (λ ln, is_data_row ln = true → path_cell ln ≠ k) post.
Proof.
  induction ls as [|l ls IH] using rev_ind.
  - cbn. by rewrite lookup_empty.
  - rewrite fold_left_app. cbn [fold_left]. unfold step at 1.
    destruct (is_data_row l) eqn:Hrow.
    + destruct (decide (path_cell l = k)) as [Hk|Hk].
      * rewrite Hk, lookup_insert_eq. intros [= <-].
        exists ls, l, []. split_and!; [done..|constructor].
      * rewrite lookup_insert_ne by done. intros Hlook.
        destruct (IH Hlook) as (pre & line & post & -> & Hline & Hpath & Hr & Hpost).
        exists pre, line, (post ++ [l]).
        split_and!; [by rewrite <- app_assoc|done..|].
        apply Forall_app. split; [done|]. by constructor.
    + intros Hlook.
      destruct (IH Hlook) as (pre & line & post & -> & Hline & Hpath & Hr & Hpost).
      exists pre, line, (post ++ [l]).
      split_and!; [by rewrite <- app_assoc|done..|].
      apply Forall_app. split; [done|]. constructor; [|constructor].
      intros Hl. congruence.
Qed.

(** * The claims *)

(** ** The verdict *)

(** C1. Whatever was printed before, [evaluate] returns a verdict, and
    the verdict is pass exactly when every tracked contract that is a key
    of the dictionary has its four metrics equal to 100.0. A tracked
    contract that is not a key constrains nothing: when none is a key the
    verdict is pass. *)
Theorem verdict_iff_tracked_present_all_100
    (d : gmap string coverage) (tracked : list string) (out : list event) :
  ∃ (out' : list event) (all_pass : bool),
    evaluate d tracked out = (out', inr all_pass)
    ∧ (all_pass = true ↔
       ∀ c data, c ∈ tracked → d !! c = Some data →
         Num.eq_float (lines data) Float.hundred = true
         ∧ Num.eq_float (statements data) Float.hundred = true
         ∧ Num.eq_float (branches data) Float.hundred = true
         ∧ Num.eq_float (functions data) Float.hundred = true)
    ∧ ((∀ c, c ∈ tracked → d !! c = None) → all_pass = true).
Proof.
  exists (out ++ breakdown d tracked), (verdict d tracked).
  split; [apply evaluate_run|]. split; [apply verdict_true_iff|].
  intros Habs. apply verdict_true_iff. intros c data Hc Hd.
  rewrite (Habs c Hc) in Hd. discriminate.
Qed.

(** ** The exit status *)

(** C2. The exit status is 0 or 1. When the tool returned a non-zero
    code the script prints the failure line and the captured standard
    error, nothing else, and exits with 1. When it returned zero the
    output is parsed and evaluated, and the exit status is 0 exactly when
    the verdict is pass and 1 exactly when it is fail. *)
Theorem exit_status_contract (tracked : list string) (proc : CompletedProcess) :
  ((run_with tracked proc).2 = 0 ∨ (run_with tracked proc).2 = 1)
  ∧ (returncode proc ≠ 0 →
     run_with tracked proc = ([Checking; FailedToRun; Stderr (stderr proc)], 1))
  ∧ (returncode proc = 0 →
     ∃ d out (all_pass : bool),
       parseReport (stdout proc) = inr d
       ∧ evaluate d tracked [Checking] = (out, inr all_pass)
       ∧ (run_with tracked proc).1
         = out ++ [if all_pass then CheckPassed else CheckFailed]
       ∧ ((run_with tracked proc).2 = 0 ↔ all_pass = true)
       ∧ ((run_with tracked proc).2 = 1 ↔ all_pass = false)).
Proof.
  rewrite run_with_eq. destruct (Z.eqb_spec (returncode proc) 0) as [H0|H0].
  - set (d := fold_left step _ ∅). cbn [fst snd].
    split; [destruct (verdict d tracked); auto|].
    split; [done|]. intros _.
    exists d, ([Checking] ++ breakdown d tracked), (verdict d tracked).
    split; [apply parseReport_fold|]. split; [apply evaluate_run|].
    split; [by rewrite <- app_assoc|].
    destruct (verdict d tracked); split; split; done.
  - cbn [fst snd]. split; [auto|]. split; [done|]. intros H. done.
Qed.

(** ** One metric *)

(** C5. A metric passes exactly when its value equals the float 100.0:
    the loop prints the passing line and keeps [all_pass], otherwise it
    prints the failing line and clears [all_pass]. Only the float 100.0
    itself (and the integer 100) compare equal: a cell with 99.99% fails,
    one with 100.00% passes, and a cell with no percentage gives 0, which
    fails. *)
Theorem metric_passes_iff_exactly_100 :
  (∀ (all_pass : bool) (name : string) (v : number) (out : list event),
     check_metric all_pass (name, v) out
     = if Num.eq_float v Float.hundred
       then (out ++ [MetricOk name v], inr all_pass)
       else (out ++ [MetricBad name v], inr false))
  ∧ (∀ v, Num.eq_float v Float.hundred = true ↔
          v = PyFloat Float.hundred ∨ v = PyInt 100)
  ∧ (∃ v, metric " 99.99% (9999/10000) " = inr v
          ∧ Num.eq_float v Float.hundred = false)
  ∧ (∃ v, metric " 100.00% (12/12) " = inr v
          ∧ Num.eq_float v Float.hundred = true)
  ∧ (metric "  " = inr (PyInt 0)
     ∧ Num.eq_float (PyInt 0) Float.zero = true
     ∧ Num.eq_float (PyInt 0) Float.hundred = false).
Proof.
  split_and!.
  - intros ap name v out. rewrite check_metric_run. unfold metric_event, eq100.
    cbn [fst snd]. destruct (Num.eq_float v Float.hundred).
    + by rewrite andb_true_r.
    + by rewrite andb_false_r.
  - apply eq100_iff.
  - eexists. split; [vm_compute; reflexivity|]. vm_compute. reflexivity.
  - eexists. split; [vm_compute; reflexivity|]. vm_compute. reflexivity.
  - vm_compute. reflexivity.
  - vm_compute. reflexivity.
  - vm_compute. reflexivity.
Qed.

(** ** Parsing never fails *)

(** C6. [parseReport] returns a dictionary for every input text. In it,
    the record of a path is read from the last data row that carries the
    path, and every record comes from such a row: each of its four values
    is the float of the first decimal percentage of its cell (the text
    that the pattern matches at the leftmost offset where it matches at
    all), or 0, which equals 0.0, when the cell holds none. No line makes
    the loop body raise; [metric] computes these values cell by cell. *)
Theorem parseReport_total_first_match_or_zero :
  (∀ text, ∃ d,
     parseReport text = inr d
     ∧ (∀ pre line post,
          Str.split "010" text = pre ++ line :: post →
          is_data_row line = true →
          Forall (λ ln, is_data_row ln = true → path_cell ln ≠ path_cell line) post →
          ∃ r, d !! path_cell line = Some r ∧ extracted_from line r)
     ∧ (∀ k r, d !! k = Some r →
          ∃ pre line post,
            Str.split "010" text = pre ++ line :: post
            ∧ is_data_row line = true ∧ path_cell line = k
            ∧ Forall (λ ln, is_data_row ln = true → path_cell ln ≠ k) post
            ∧ extracted_from line r))
  ∧ (∀ d line, ∃ d', parse_line d line = inr d')
  ∧ (∀ d line, is_data_row line = true →
       ∃ vl vs vb vf,
         metric (cell line 2) = inr vl ∧ metric (cell line 3) = inr vs
         ∧ metric (cell line 4) = inr vb ∧ metric (cell line 5) = inr vf
         ∧ parse_line d line
           = inr (<[path_cell line := Coverage vl vs vb vf]> d))
  ∧ (∀ c,
       match Re.search c with
       | Some g =>
           (∃ n, occurs_at c n g
                 ∧ (∀ g', occurs_at c n g' → g' = g)
                 ∧ ∀ m g', (m < n)%nat → ¬ occurs_at c m g')
           ∧ ∃ f, Float.of_string g = Some f ∧ metric c = inr (PyFloat f)
       | None =>
           (∀ n g, ¬ occurs_at c n g) ∧ metric c = inr (PyInt 0)
       end)
  ∧ (∀ c v, metric c = inr v → first_match_or_zero c v)
  ∧ Num.eq_float (PyInt 0) Float.zero = true.
Proof.
  split_and!.
  - intros text. exists (fold_left step (Str.split "010" text) ∅).
    split; [apply parseReport_fold|]. split.
    + intros pre line post Hsplit Hrow Hpost. exists (record_of line).
      split; [|apply record_of_extracted].
      rewrite Hsplit. by apply fold_step_last.
    + intros k r Hk.
      destruct (fold_step_origin _ k r Hk)
        as (pre & line & post & Hsplit & Hrow & Hpath & -> & Hpost).
      exists pre, line, post. split_and!; [done..|apply record_of_extracted].
  - intros d line. eexists. apply parse_line_step.
  - intros d line Hrow. rewrite parse_line_step. unfold step. rewrite Hrow.
    do 4 eexists. rewrite !metric_total. split_and!; reflexivity.
  - intros c. pose proof (metric_cases c) as Hm.
    destruct (Re.search c) as [g|] eqn:Hs.
    + split.
      * destruct (search_Some c g Hs) as (n & Hocc & Hmin). exists n.
        split; [done|]. split; [|done].
        intros g' Hocc'. by apply (occurs_at_unique c n).
      * destruct Hm as (f & Hf & _ & Hm). eauto.
    + split; [by apply search_None|done].
  - intros c v. rewrite metric_total. intros [= <-].
    apply number_of_first_match.
  - reflexivity.
Qed.

(** ** Rows of the table *)

(** C3 (as amended). In a row as [forge] prints it, the path is the
    first cell after the leading delimiter and the four metrics come from
    the four cells that follow: when no later row carries the same path,
    the dictionary maps the stripped path cell to the record of these
    four cells. *)
Theorem forge_row_maps_first_cell_to_next_four
    (text : string) (pre post : list string) (file l s b f tail : string) :
  has "|" file = false → has "|" l = false → has "|" s = false →
  has "|" b = false → has "|" f = false →
  tail = "" ∨ Str.startswith "|" tail = true →
  Str.contains " | " (forge_row file l s b f tail) = true →
  Str.strip file ≠ "" → Str.startswith "-" (Str.strip file) = false →
  Str.split "010" text = pre ++ forge_row file l s b f tail :: post →
  Forall (λ ln, is_data_row ln = true → path_cell ln ≠ Str.strip file) post →
  ∃ d vl vs vb vf,
    parseReport text = inr d
    ∧ metric l = inr vl ∧ metric s = inr vs
    ∧ metric b = inr vb ∧ metric f = inr vf
    ∧ d !! Str.strip file = Some (Coverage vl vs vb vf).
Proof.
  intros Hfile Hl Hs Hb Hf Htail Hsp Hne Hdash Hsplit Hpost.
  destruct (forge_row_cells file l s b f tail Hfile Hl Hs Hb Hf Htail)
    as (Hrow & Hpath & Hrec); [done..|].
  exists (fold_left step (Str.split "010" text) ∅),
    (number_of l), (number_of s), (number_of b), (number_of f).
  split; [apply parseReport_fold|]. rewrite !metric_total.
  split_and!; try done.
  rewrite Hsplit, <- Hpath, <- Hrec. apply fold_step_last; [done|].
  by rewrite Hpath.
Qed.

(** The theorem at the row of [src/Auction.sol]. *)
Lemma forge_row_maps_first_cell_witness :
  ∃ d vl vs vb vf,
    parseReport "| src/Auction.sol | 100.00% (12/12) | 100.00% (15/15) | 92.50% (37/40) | 100.00% (4/4) |"
    = inr d
    ∧ metric " 100.00% (12/12) " = inr vl ∧ metric " 100.00% (15/15) " = inr vs
    ∧ metric " 92.50% (37/40) " = inr vb ∧ metric " 100.00% (4/4) " = inr vf
    ∧ d !! Str.strip " src/Auction.sol " = Some (Coverage vl vs vb vf).
Proof.
  apply (forge_row_maps_first_cell_to_next_four _ [] []
           " src/Auction.sol " " 100.00% (12/12) " " 100.00% (15/15) "
           " 92.50% (37/40) " " 100.00% (4/4) " "|").
  - reflexivity.
  - reflexivity.
  - reflexivity.
  - reflexivity.
  - reflexivity.
  - right. reflexivity.
  - reflexivity.
  - vm_compute. discriminate.
  - reflexivity.
  - reflexivity.
  - constructor.
Defined.

(** C3 (as stated) fails: in a row with a label cell before the file
    cell, the path of the file cell is not a key at all; the key is the
    label, and its metrics are read from the file cell and the first
    three percentages. *)
Lemma table_row_with_label_counterexample :
  ∃ d,
    parseReport (Spec.table_row "x" "src/A.sol" "100.00% (1/1)" "90.00% (9/10)"
                   "80.00% (4/5)" "70.00% (7/10)" "")
    = inr d
    ∧ d !! "src/A.sol" = None
    ∧ ∃ v100 v90 v80,
        metric "100.00% (1/1)" = inr v100 ∧ metric "90.00% (9/10)" = inr v90
        ∧ metric "80.00% (4/5)" = inr v80
        ∧ d !! "x" = Some (Coverage (PyInt 0) v100 v90 v80).
Proof.
  eexists. split; [vm_compute; reflexivity|]. split; [vm_compute; reflexivity|].
  do 3 eexists. split_and!; vm_compute; reflexivity.
Qed.

(** C7 (as amended). The loop body adds an entry for a line exactly when
    the line starts with the delimiter, contains the delimiter between two
    spaces, splits into at least six cells, and its stripped second cell is
    not empty and does not start with a dash; the entry is then the one of
    that cell. Every other line leaves the dictionary as it is. *)
Theorem line_adds_entry_iff (line : string) :
  ((∃ k r, ∀ d, parse_line d line = inr (<[k := r]> d)) ↔
   Str.startswith "|" line = true ∧ Str.contains " | " line = true
   ∧ (6 ≤ length (Str.split "|" line))%nat
   ∧ path_cell line ≠ "" ∧ Str.startswith "-" (path_cell line) = false)
  ∧ (is_data_row line = true →
     ∀ d, parse_line d line = inr (<[path_cell line := record_of line]> d))
  ∧ (is_data_row line = false → ∀ d, parse_line d line = inr d).
Proof.
  assert (is_data_row line = true ↔
          Str.startswith "|" line = true ∧ Str.contains " | " line = true
          ∧ (6 ≤ length (Str.split "|" line))%nat
          ∧ path_cell line ≠ "" ∧ Str.startswith "-" (path_cell line) = false)
    as Hrow.
  { unfold is_data_row. rewrite !andb_true_iff, Nat.leb_le, negb_true_iff.
    assert (Str.truthy (path_cell line) = true ↔ path_cell line ≠ "") as ->
      by (by destruct (path_cell line)).
    tauto. }
  split_and!.
  - rewrite <- Hrow. split.
    + intros (k & r & H). specialize (H ∅). rewrite parse_line_step in H.
      unfold step in H. destruct (is_data_row line); [done|].
      assert (<[k := r]> (∅ : gmap string coverage) = ∅) as Hk by congruence.
      by apply insert_non_empty in Hk.
    + intros H. exists (path_cell line), (record_of line). intros d.
      rewrite parse_line_step. unfold step. by rewrite H.
  - intros H d. rewrite parse_line_step. unfold step. by rewrite H.
  - intros H d. rewrite parse_line_step. unfold step. by rewrite H.
Qed.

(** C7 (as stated) fails: a line with delimiters and no blanks around
    them meets every condition of the claim and adds no entry. *)
Lemma interior_delimiter_counterexample :
  Str.startswith "|" "|a|b|c|d|e|" = true
  ∧ Spec.interior_delimiter "|a|b|c|d|e|" = true
  ∧ (6 ≤ length (Str.split "|" "|a|b|c|d|e|"))%nat
  ∧ path_cell "|a|b|c|d|e|" = "a"
  ∧ Spec.data_row "|a|b|c|d|e|" = true
  ∧ parse_line ∅ "|a|b|c|d|e|" = inr ∅
  ∧ parseReport "|a|b|c|d|e|" = inr ∅.
Proof.
  split_and!; try (vm_compute; reflexivity). vm_compute. lia.
Qed.

(** ** The listing of the other sources *)

(** C4 (as amended). A key of the dictionary that starts with [src/], is
    not [src/Counter.sol] and is not tracked is printed as not tracked.
    Its entry has no part in the verdict or the exit status: they are the
    same when the entry is replaced by any other record or removed. *)
Theorem untracked_source_listed_verdict_unchanged
    (d : gmap string coverage) (tracked : list string) (out : list event)
    (c : string) :
  is_Some (d !! c) →
  Str.startswith "src/" c = true →
  c ≠ "src/Counter.sol" →
  c ∉ tracked →
  ∃ (out' : list event) (all_pass : bool),
    evaluate d tracked out = (out', inr all_pass)
    ∧ NotTracked c ∈ out'
    ∧ (∀ r, (evaluate (<[c := r]> d) tracked out).2 = inr all_pass
            ∧ exit_code (report_and_exit (<[c := r]> d) tracked out).2
              = exit_code (report_and_exit d tracked out).2)
    ∧ (evaluate (delete c d) tracked out).2 = inr all_pass
    ∧ exit_code (report_and_exit (delete c d) tracked out).2
      = exit_code (report_and_exit d tracked out).2.
Proof.
  intros Hin Hsrc Hcounter Hnot.
  exists (out ++ breakdown d tracked), (verdict d tracked).
  split; [apply evaluate_run|]. split.
  { apply elem_of_app. right. by apply not_tracked_in_breakdown. }
  assert (∀ r, verdict (<[c := r]> d) tracked = verdict d tracked) as Hins.
  { intros r. apply verdict_ext. intros c' Hc'.
    apply lookup_insert_ne. by intros ->. }
  assert (verdict (delete c d) tracked = verdict d tracked) as Hdel.
  { apply verdict_ext. intros c' Hc'. apply lookup_delete_ne. by intros ->. }
  split_and!.
  - intros r. rewrite evaluate_run, !report_and_exit_run. cbn [snd]. by rewrite Hins.
  - rewrite evaluate_run. cbn [snd]. by rewrite Hdel.
  - rewrite !report_and_exit_run. cbn [snd]. by rewrite Hdel.
Qed.

(** The theorem at a report that holds the helper contract alone. *)
Lemma untracked_source_listed_witness :
  ∃ (out' : list event) (all_pass : bool),
    evaluate {["src/Helper.sol" := Coverage (PyInt 0) (PyInt 0) (PyInt 0) (PyInt 0)]}
      PRODUCTION_CONTRACTS [] = (out', inr all_pass)
    ∧ NotTracked "src/Helper.sol" ∈ out'
    ∧ (∀ r, (evaluate (<["src/Helper.sol" := r]>
                         {["src/Helper.sol" := Coverage (PyInt 0) (PyInt 0) (PyInt 0) (PyInt 0)]})
               PRODUCTION_CONTRACTS []).2 = inr all_pass
            ∧ exit_code (report_and_exit (<["src/Helper.sol" := r]>
                                 {["src/Helper.sol" := Coverage (PyInt 0) (PyInt 0) (PyInt 0) (PyInt 0)]})
                           PRODUCTION_CONTRACTS []).2
              = exit_code (report_and_exit {["src/Helper.sol" := Coverage (PyInt 0) (PyInt 0) (PyInt 0) (PyInt 0)]}
                             PRODUCTION_CONTRACTS []).2)
    ∧ (evaluate (delete "src/Helper.sol"
                   {["src/Helper.sol" := Coverage (PyInt 0) (PyInt 0) (PyInt 0) (PyInt 0)]})
         PRODUCTION_CONTRACTS []).2 = inr all_pass
    ∧ exit_code (report_and_exit (delete "src/Helper.sol"
                         {["src/Helper.sol" := Coverage (PyInt 0) (PyInt 0) (PyInt 0) (PyInt 0)]})
                   PRODUCTION_CONTRACTS []).2
      = exit_code (report_and_exit {["src/Helper.sol" := Coverage (PyInt 0) (PyInt 0) (PyInt 0) (PyInt 0)]}
                     PRODUCTION_CONTRACTS []).2.
Proof.
  apply (untracked_source_listed_verdict_unchanged
           {["src/Helper.sol" := Coverage (PyInt 0) (PyInt 0) (PyInt 0) (PyInt 0)]}
           PRODUCTION_CONTRACTS [] "src/Helper.sol").
  - vm_compute. eauto.
  - reflexivity.
  - discriminate.
  - apply (bool_decide_eq_false_1 _). reflexivity.
Defined.

(** C4 (as stated) fails: [src/Counter.sol] is in the report, starts with
    [src/] and is not tracked, and the run prints no line for it. *)
Lemma counter_sol_counterexample :
  ∃ d,
    parseReport "| src/Counter.sol | 50.00% (1/2) | 50.00% (1/2) | 50.00% (1/2) | 50.00% (1/2) |"
    = inr d
    ∧ is_Some (d !! "src/Counter.sol")
    ∧ Str.startswith "src/" "src/Counter.sol" = true
    ∧ ("src/Counter.sol" ∉ PRODUCTION_CONTRACTS)
    ∧ run (Completed 0
             "| src/Counter.sol | 50.00% (1/2) | 50.00% (1/2) | 50.00% (1/2) | 50.00% (1/2) |"
             "")
      = ([Checking; ReportHeader; SourcesHeader; Rule; CheckPassed], 0)
    ∧ (NotTracked "src/Counter.sol"
       ∉ [Checking; ReportHeader; SourcesHeader; Rule; CheckPassed]).
Proof.
  eexists. split; [vm_compute; reflexivity|]. split_and!.
  - vm_compute. eauto.
  - reflexivity.
  - apply (bool_decide_eq_false_1 _). reflexivity.
  - vm_compute. reflexivity.
  - intros H. repeat (apply elem_of_cons in H as [H|H]; [discriminate|]).
    by apply elem_of_nil in H.
Qed.

(** ** The records *)

(** C8 (as amended). [parseReport] returns a dictionary, and every record
    in it has its four fields, each the integer 0 or a float that is
    neither negative nor NaN. The float may exceed 100. *)
Theorem parsed_metrics_present_and_not_negative (text : string) :
  ∃ d,
    parseReport text = inr d
    ∧ map_Forall (λ _ r, nonneg (lines r) ∧ nonneg (statements r)
                         ∧ nonneg (branches r) ∧ nonneg (functions r)) d.
Proof.
  eexists. split; [apply parseReport_fold|].
  apply fold_step_inv; [|apply map_Forall_empty].
  intros line. unfold record_of. cbn [lines statements branches functions].
  split_and!; apply number_of_nonneg.
Qed.

(** C8 (as stated) fails: a cell that reads 150.00% is stored as the
    float 150.0, which is above 100. *)
Lemma metric_above_100_counterexample :
  ∃ d r,
    parseReport "| src/A.sol | 150.00% (3/2) | 100.00% (1/1) | 100.00% (1/1) | 100.00% (1/1) |"
    = inr d
    ∧ d !! "src/A.sol" = Some r
    ∧ lines r = PyFloat (S754_finite false 5277655813324800 (-45))
    ∧ Spec.in_range (lines r) = false.
Proof.
  do 2 eexists. split; [vm_compute; reflexivity|].
  split; [vm_compute; reflexivity|]. split; vm_compute; reflexivity.
Qed.

(** ** Determinism *)

(** C9. The verdict and the lines that [evaluate] prints are a function
    of the dictionary and the tracked list: every run, whatever was
    printed before it, and every run on a dictionary with the same
    entries, adds the same lines and returns the same verdict. *)
Theorem evaluate_same_inputs_same_result
    (d : gmap string coverage) (tracked : list string) :
  ∃ (report : list event) (all_pass : bool),
    (∀ out, evaluate d tracked out = (out ++ report, inr all_pass))
    ∧ (∀ out, (x ← evaluate d tracked; evaluate d tracked) out
              = ((out ++ report) ++ report, inr all_pass))
    ∧ (∀ d' out, (∀ k, d' !! k = d !! k) →
                 evaluate d' tracked out = (out ++ report, inr all_pass)).
Proof.
  exists (breakdown d tracked), (verdict d tracked). split_and!.
  - intros out. apply evaluate_run.
  - intros out. unfold Io.bind. by rewrite !evaluate_run.
  - intros d' out Hsame. apply map_eq in Hsame as ->. apply evaluate_run.
Qed.

(** ** Repeated paths *)

(** C10. When several rows carry the same path, the entry of the path is
    the record of the last of them: a row after which no row carries its
    path determines the entry, whatever comes before it. *)
Theorem last_row_of_a_path_wins
    (text : string) (pre post : list string) (line : string) :
  Str.split "010" text = pre ++ line :: post →
  is_data_row line = true →
  Forall (λ ln, is_data_row ln = true → path_cell ln ≠ path_cell line) post →
  ∃ d,
    parseReport text = inr d
    ∧ for_each (pre ++ [line]) parse_line ∅
      = inr (<[path_cell line := record_of line]> (fold_left step pre ∅))
    ∧ d !! path_cell line = Some (record_of line).
Proof.
  intros Hsplit Hrow Hpost. eexists. split; [apply parseReport_fold|]. split.
  - rewrite for_each_fold, fold_left_app. cbn [fold_left]. unfold step at 1.
    by rewrite Hrow.
  - rewrite Hsplit. by apply fold_step_last.
Qed.

(** The theorem at a text with two rows for [src/A.sol] and one for
    another path after them. *)
Lemma last_row_of_a_path_wins_witness :
  ∃ d,
    parseReport
      ("| src/A.sol | 10.00% | 20.00% | 30.00% | 40.00% |" +:+ String "010"
       ("| src/A.sol | 50.00% | 60.00% | 70.00% | 80.00% |" +:+ String "010"
        "| src/B.sol | 1.00% | 2.00% | 3.00% | 4.00% |"))
    = inr d
    ∧ for_each (["| src/A.sol | 10.00% | 20.00% | 30.00% | 40.00% |"]
                ++ ["| src/A.sol | 50.00% | 60.00% | 70.00% | 80.00% |"])
        parse_line ∅
      = inr (<[path_cell "| src/A.sol | 50.00% | 60.00% | 70.00% | 80.00% |"
               := record_of "| src/A.sol | 50.00% | 60.00% | 70.00% | 80.00% |"]>
               (fold_left step ["| src/A.sol | 10.00% | 20.00% | 30.00% | 40.00% |"] ∅))
    ∧ d !! path_cell "| src/A.sol | 50.00% | 60.00% | 70.00% | 80.00% |"
      = Some (record_of "| src/A.sol | 50.00% | 60.00% | 70.00% | 80.00% |").
Proof.
  apply (last_row_of_a_path_wins _
           ["| src/A.sol | 10.00% | 20.00% | 30.00% | 40.00% |"]
           ["| src/B.sol | 1.00% | 2.00% | 3.00% | 4.00% |"]
           "| src/A.sol | 50.00% | 60.00% | 70.00% | 80.00% |").
  - reflexivity.
  - reflexivity.
  - constructor; [|constructor]. intros _. vm_compute. discriminate.
Defined.

(** * Further properties of the script *)

(** ** More on strings *)

Lemma has_app c a b : has c (a +:+ b) = has c a || has c b.
Proof.
  induction a as [|x a IH]; [done|].
  rewrite sapp_cons. cbn [has]. by rewrite IH, orb_assoc.
Qed.

Lemma startswith_has c s : Str.startswith (String c "") s = true → has c s = true.
Proof.
  intros [t ->]%startswith_inv. rewrite sapp_cons. cbn [has].
  by rewrite Ascii.eqb_refl.
Qed.

(** Splitting a text joined by the separator. *)
Lemma split_join sep a b :
  Str.split sep (a +:+ String sep b) = Str.split sep a ++ Str.split sep b.
Proof.
  induction a as [|c a IH].
  - rewrite sapp_nil_l. cbn [Str.split]. by rewrite Ascii.eqb_refl.
  - rewrite sapp_cons. cbn [Str.split]. rewrite IH.
    destruct (Ascii.eqb c sep); [done|].
    pose proof (split_not_nil sep a) as Hne.
    by destruct (Str.split sep a).
Qed.

(** The parts hold no character that the text does not hold. *)
Lemma split_has c sep s :
  has c s = false → Forall (λ p, has c p = false) (Str.split sep s).
Proof.
  induction s as [|x s IH]; intros H; cbn [Str.split].
  - by constructor.
  - cbn [has] in H. apply orb_false_iff in H as [Hx Hs]. specialize (IH Hs).
    destruct (Ascii.eqb x sep).
    + by constructor.
    + pose proof (split_not_nil sep s) as Hne.
      destruct (Str.split sep s) as [|h t]; [done|].
      inversion IH; subst. constructor; [|done]. cbn [has]. by rewrite Hx.
Qed.

(** The parts do not hold the separator. *)
Lemma split_parts_no_sep sep s : Forall (λ p, has sep p = false) (Str.split sep s).
Proof.
  induction s as [|x s IH]; cbn [Str.split].
  - by constructor.
  - destruct (Ascii.eqb x sep) eqn:Hx.
    + by constructor.
    + pose proof (split_not_nil sep s) as Hne.
      destruct (Str.split sep s) as [|h t]; [done|].
      inversion IH; subst. constructor; [|done]. cbn [has]. by rewrite Hx.
Qed.

Lemma has_lstrip c s : has c s = false → has c (Str.lstrip s) = false.
Proof.
  induction s as [|x s IH]; [done|]. intros H. cbn [Str.lstrip].
  destruct (Str.isspace x); [|done].
  cbn [has] in H. apply orb_false_iff in H as [_ Hs]. auto.
Qed.

Lemma has_rstrip c s : has c s = false → has c (Str.rstrip s) = false.
Proof.
  induction s as [|x s IH]; [done|]. intros H. cbn [has] in H.
  apply orb_false_iff in H as [Hx Hs]. specialize (IH Hs). cbn [Str.rstrip].
  destruct (Str.rstrip s) as [|y r].
  - destruct (Str.isspace x); [done|]. cbn [has]. by rewrite Hx.
  - cbn [has] in *. by rewrite Hx.
Qed.

Lemma has_strip c s : has c s = false → has c (Str.strip s) = false.
Proof. intros H. by apply has_rstrip, has_lstrip. Qed.

Lemma lstrip_no_blank_head s : no_blank_head (Str.lstrip s) = true.
Proof.
  induction s as [|x s IH]; [done|]. cbn [Str.lstrip].
  destruct (Str.isspace x) eqn:Hx; [done|]. cbn. by rewrite Hx.
Qed.

Lemma lstrip_id s : no_blank_head s = true → Str.lstrip s = s.
Proof.
  destruct s as [|x s]; [done|]. cbn. intros H%negb_true_iff. by rewrite H.
Qed.

Lemma rstrip_no_blank_head s :
  no_blank_head s = true → no_blank_head (Str.rstrip s) = true.
Proof.
  destruct s as [|x s]; [done|]. cbn [no_blank_head Str.rstrip].
  intros H. destruct (Str.rstrip s).
  - apply negb_true_iff in H. by rewrite H; cbn; rewrite H.
  - done.
Qed.

Lemma rstrip_idem s : Str.rstrip (Str.rstrip s) = Str.rstrip s.
Proof.
  induction s as [|x s IH]; [done|]. cbn [Str.rstrip].
  destruct (Str.rstrip s) as [|y r] eqn:Hr.
  - destruct (Str.isspace x) eqn:Hx; [done|]. cbn. by rewrite Hx.
  - cbn [Str.rstrip]. cbn [Str.rstrip] in IH. by rewrite IH.
Qed.

(** Stripping twice is stripping once. *)
Lemma strip_idem s : Str.strip (Str.strip s) = Str.strip s.
Proof.
  unfold Str.strip.
  rewrite (lstrip_id (Str.rstrip _)).
  - apply rstrip_idem.
  - apply rstrip_no_blank_head, lstrip_no_blank_head.
Qed.

(** ** More on parsing *)

Lemma not_row_without_delimiter l : Str.startswith "|" l = false → is_data_row l = false.
Proof. intros H. unfold is_data_row. by rewrite H. Qed.

Lemma fold_step_no_rows ls d :
  Forall (λ l, Str.startswith "|" l = false) ls → fold_left step ls d = d.
Proof.
  intros H. revert d. induction H as [|l ls Hl _ IH]; intros d; [done|].
  cbn [fold_left]. rewrite IH. unfold step.
  by rewrite (not_row_without_delimiter l Hl).
Qed.

Lemma step_union d line : step d line = step ∅ line ∪ d.
Proof.
  unfold step. destruct (is_data_row line).
  - by rewrite insert_union_singleton_l, insert_empty.
  - by rewrite (left_id_L ∅ (∪)).
Qed.

(** Parsing from a dictionary lays the new entries over it. *)
Lemma fold_step_union ls d : fold_left step ls d = fold_left step ls ∅ ∪ d.
Proof.
  revert d. induction ls as [|l ls IH]; intros d; cbn [fold_left].
  - by rewrite (left_id_L ∅ (∪)).
  - rewrite (IH (step d l)), (IH (step ∅ l)), (step_union d l).
    by rewrite (assoc_L (∪)).
Qed.

Lemma split_nl a b :
  Str.split "010" (a +:+ nl +:+ b) = Str.split "010" a ++ Str.split "010" b.
Proof. unfold nl. rewrite sapp_cons, sapp_nil_l. apply split_join. Qed.

Lemma fold_step_keys (P : string → Prop) ls d :
  Forall (λ l, is_data_row l = true → P (path_cell l)) ls →
  (∀ k, is_Some (d !! k) → P k) →
  ∀ k, is_Some (fold_left step ls d !! k) → P k.
Proof.
  intros H. revert d. induction H as [|l ls Hl _ IH]; intros d Hd; [done|].
  cbn [fold_left]. apply IH. intros k. unfold step.
  destruct (is_data_row l); [|by auto].
  rewrite lookup_insert_is_Some. intros [<-|[_ Hk]]; auto.
Qed.

Lemma Forall_nth_default (P : string → Prop) (l : list string) i :
  P "" → Forall P l → P (nth i l "").
Proof.
  intros H0 H. revert i. induction H as [|x l Hx _ IH]; intros [|i]; cbn; auto.
Qed.

Lemma path_cell_clean l :
  has "010" l = false → is_data_row l = true →
  path_cell l ≠ "" ∧ Str.startswith "-" (path_cell l) = false
  ∧ Str.strip (path_cell l) = path_cell l
  ∧ has "|" (path_cell l) = false ∧ has "010" (path_cell l) = false.
Proof.
  intros Hnl Hrow. unfold is_data_row in Hrow.
  apply andb_true_iff in Hrow as [Hrow Hdash].
  apply andb_true_iff in Hrow as [_ Htruthy].
  split_and!.
  - by destruct (path_cell l).
  - by apply negb_true_iff.
  - apply strip_idem.
  - apply has_strip. unfold cell.
    apply (Forall_nth_default (λ p, has "|" p = false)); [done|].
    apply split_parts_no_sep.
  - apply has_strip. unfold cell.
    apply (Forall_nth_default (λ p, has "010" p = false)); [done|].
    by apply split_has.
Qed.

Lemma search_has_dot_percent c g :
  Re.search c = Some g → has "." c = true ∧ has "%" c = true.
Proof.
  intros (n & (pre & post & -> & _ & ip & fp & -> & _) & _)%search_Some.
  rewrite !has_app. cbn [has]. cbn.
  rewrite !orb_true_r. done.
Qed.

Lemma breakdown_empty tracked :
  breakdown ∅ tracked = [ReportHeader; SourcesHeader; Rule].
Proof.
  unfold breakdown, sorted_keys. rewrite map_to_list_empty.
  assert (flat_map (contract_events ∅) tracked = []) as ->.
  { induction tracked as [|c l IH]; [done|]. cbn [flat_map].
    unfold contract_events at 1. by rewrite lookup_empty, IH. }
  reflexivity.
Qed.

Lemma verdict_empty tracked : verdict ∅ tracked = true.
Proof.
  unfold verdict. apply forallb_forall. intros c _.
  unfold contract_ok. by rewrite lookup_empty.
Qed.

(** ** What the parser does with the text *)

(** X1. When the tool succeeds and no line of its output starts with the
    delimiter, the dictionary is empty, nothing is checked, and the script
    reports success and exits with 0. *)
Theorem output_without_table_passes (tracked : list string) (proc : CompletedProcess) :
  returncode proc = 0 →
  Forall (λ l, Str.startswith "|" l = false) (Str.split "010" (stdout proc)) →
  parseReport (stdout proc) = inr ∅
  ∧ run_with tracked proc
    = ([Checking; ReportHeader; SourcesHeader; Rule; CheckPassed], 0).
Proof.
  intros Hrc Hlines.
  assert (fold_left step (Str.split "010" (stdout proc)) ∅ = ∅) as Hfold
    by by apply fold_step_no_rows.
  split.
  - by rewrite parseReport_fold, Hfold.
  - rewrite run_with_eq, Hrc. cbn [Z.eqb]. cbv zeta.
    by rewrite Hfold, breakdown_empty, verdict_empty.
Qed.

(** The theorem at an output that is an error message of two lines. *)
Lemma output_without_table_passes_witness :
  parseReport (stdout (Completed 0 ("Error: no tests" +:+ nl +:+ "  | 3 | contract A {}") ""))
  = inr ∅
  ∧ run_with PRODUCTION_CONTRACTS
      (Completed 0 ("Error: no tests" +:+ nl +:+ "  | 3 | contract A {}") "")
    = ([Checking; ReportHeader; SourcesHeader; Rule; CheckPassed], 0).
Proof.
  apply (output_without_table_passes PRODUCTION_CONTRACTS
           (Completed 0 ("Error: no tests" +:+ nl +:+ "  | 3 | contract A {}") "")).
  - reflexivity.
  - vm_compute. repeat constructor.
Defined.

(** X2. A line that does not start with the delimiter changes nothing,
    wherever it stands in the text: the dictionary is the one of the text
    without that line. *)
Theorem line_without_leading_delimiter_is_ignored (a b noise : string) :
  Str.startswith "|" noise = false →
  has "010" noise = false →
  parseReport (a +:+ nl +:+ noise +:+ nl +:+ b) = parseReport (a +:+ nl +:+ b)
  ∧ parseReport (noise +:+ nl +:+ b) = parseReport b
  ∧ parseReport (a +:+ nl +:+ noise) = parseReport a.
Proof.
  intros Hstart Hnl.
  assert (∀ d, step d noise = d) as Hstep.
  { intros d. unfold step. by rewrite (not_row_without_delimiter noise Hstart). }
  rewrite !parseReport_fold, !split_nl, (split_none _ noise Hnl).
  rewrite !fold_left_app. cbn [fold_left]. by rewrite !Hstep.
Qed.

(** The theorem at a compiler message between two rows. *)
Lemma line_without_leading_delimiter_witness :
  parseReport ("| src/A.sol | 1.00% | 2.00% | 3.00% | 4.00% |" +:+ nl
               +:+ "Compiling 3 files | done" +:+ nl
               +:+ "| src/B.sol | 5.00% | 6.00% | 7.00% | 8.00% |")
  = parseReport ("| src/A.sol | 1.00% | 2.00% | 3.00% | 4.00% |" +:+ nl
                 +:+ "| src/B.sol | 5.00% | 6.00% | 7.00% | 8.00% |")
  ∧ parseReport ("Compiling 3 files | done" +:+ nl
                 +:+ "| src/B.sol | 5.00% | 6.00% | 7.00% | 8.00% |")
    = parseReport "| src/B.sol | 5.00% | 6.00% | 7.00% | 8.00% |"
  ∧ parseReport ("| src/A.sol | 1.00% | 2.00% | 3.00% | 4.00% |" +:+ nl
                 +:+ "Compiling 3 files | done")
    = parseReport "| src/A.sol | 1.00% | 2.00% | 3.00% | 4.00% |".
Proof.
  apply (line_without_leading_delimiter_is_ignored
           "| src/A.sol | 1.00% | 2.00% | 3.00% | 4.00% |"
           "| src/B.sol | 5.00% | 6.00% | 7.00% | 8.00% |"
           "Compiling 3 files | done").
  - reflexivity.
  - reflexivity.
Defined.

(** X3. The dictionary of two texts joined by a line feed is the
    dictionary of the second laid over the one of the first: it has the
    entries of both, and the second text decides where both have a path. *)
Theorem report_of_joined_texts (a b : string) :
  ∃ da db,
    parseReport a = inr da ∧ parseReport b = inr db
    ∧ parseReport (a +:+ nl +:+ b) = inr (db ∪ da)
    ∧ ∀ k, (db ∪ da) !! k = match db !! k with Some r => Some r | None => da !! k end.
Proof.
  exists (fold_left step (Str.split "010" a) ∅), (fold_left step (Str.split "010" b) ∅).
  rewrite !parseReport_fold, split_nl, fold_left_app. split_and!; [done..| |].
  - by rewrite fold_step_union.
  - intros k. rewrite lookup_union. by destruct (_ !! k), (_ !! k).
Qed.

(** X4. Every key of the parsed dictionary is a stripped, non-empty path:
    it does not start with a dash, has no blank at either end, and holds
    neither the delimiter nor a line feed. *)
Theorem report_keys_are_stripped_paths (text : string) :
  ∃ d,
    parseReport text = inr d
    ∧ ∀ k, is_Some (d !! k) →
        k ≠ "" ∧ Str.startswith "-" k = false ∧ Str.strip k = k
        ∧ has "|" k = false ∧ has "010" k = false.
Proof.
  eexists. split; [apply parseReport_fold|].
  apply fold_step_keys.
  - eapply Forall_impl; [apply (split_parts_no_sep "010" text)|].
    intros l Hl Hrow. by apply path_cell_clean.
  - intros k [r Hk]. by rewrite lookup_empty in Hk.
Qed.

(** X5. A cell that lacks the decimal point or the percent sign, such as
    [100%], holds no match: its value is the integer 0. *)
Theorem cell_without_point_or_percent_is_zero (c : string) :
  has "." c = false ∨ has "%" c = false →
  Re.search c = None ∧ metric c = inr (PyInt 0).
Proof.
  intros H. assert (Re.search c = None) as Hs.
  { destruct (Re.search c) as [g|] eqn:Hs; [|done].
    apply search_has_dot_percent in Hs as [Hd Hp]. destruct H; congruence. }
  split; [done|]. unfold metric. by rewrite Hs.
Qed.

(** The theorem at the cell [100%]. *)
Lemma cell_without_point_witness :
  Re.search " 100% (12/12) " = None ∧ metric " 100% (12/12) " = inr (PyInt 0).
Proof.
  apply (cell_without_point_or_percent_is_zero " 100% (12/12) ").
  left. reflexivity.
Defined.

(** ** More on the report *)

Lemma elem_of_flat_map {A B} (f : A → list B) (l : list A) (y : B) :
  y ∈ flat_map f l ↔ ∃ x, x ∈ l ∧ y ∈ f x.
Proof.
  rewrite list_elem_of_In, in_flat_map. split.
  - intros (x & Hx & Hy). exists x. by rewrite !list_elem_of_In.
  - intros (x & Hx & Hy). exists x. by rewrite <- !list_elem_of_In.
Qed.

(** The four metric lines of a contract. *)
Lemma metric_events_items data :
  map metric_event (items data)
  = [metric_event ("lines", lines data);
     metric_event ("statements", statements data);
     metric_event ("branches", branches data);
     metric_event ("functions", functions data)].
Proof. reflexivity. Qed.

Lemma elem_of_contract_events e d c :
  e ∈ contract_events d c ↔
  ∃ data, d !! c = Some data
          ∧ (e = ContractHeader c ∨ e ∈ map metric_event (items data)).
Proof.
  unfold contract_events. destruct (d !! c) as [data|].
  - rewrite elem_of_cons. split; [by eauto|]. by intros (? & [= <-] & ?).
  - split; [by intros ?%elem_of_nil|]. by intros (? & [=] & _).
Qed.

Lemma elem_of_source_events e d tracked cs c :
  e ∈ source_events d tracked cs c ↔
  Str.startswith "src/" c = true ∧ c ≠ "src/Counter.sol"
  ∧ (((c ∉ tracked) ∧ e = NotTracked c)
     ∨ (c ∈ tracked ∧ c ∈ cs
        ∧ ∃ data, d !! c = Some data ∧ e = Status (all_100 data) c)).
Proof.
  unfold source_events, mem.
  destruct (Str.startswith "src/" c); cbn [andb];
    [|split; [by intros ?%elem_of_nil|by intros ([=] & _)]].
  destruct (String.eqb_spec c "src/Counter.sol") as [Heq|Hne]; cbn [negb];
    [split; [by intros ?%elem_of_nil|by intros (_ & ? & _)]|].
  destruct (decide (c ∈ tracked)) as [Hin|Hout].
  - rewrite (bool_decide_eq_true_2 _ Hin). cbn [negb].
    destruct (decide (c ∈ cs)) as [Hcs|Hcs].
    + rewrite (bool_decide_eq_true_2 _ Hcs). destruct (d !! c) as [data|].
      * rewrite list_elem_of_singleton. split.
        -- intros ->. split_and!; [done..|]. right. eauto.
        -- intros (_ & _ & [[? _]|(_ & _ & ? & [= <-] & ->)]); done.
      * split; [by intros ?%elem_of_nil|].
        intros (_ & _ & [[? _]|(_ & _ & ? & [=] & _)]); done.
    + rewrite (bool_decide_eq_false_2 _ Hcs).
      split; [by intros ?%elem_of_nil|].
      intros (_ & _ & [[? _]|(_ & ? & _)]); done.
  - rewrite (bool_decide_eq_false_2 _ Hout). cbn [negb].
    rewrite list_elem_of_singleton. split.
    + intros ->. split_and!; [done..|]. by left.
    + intros (_ & _ & [[_ ->]|(? & _)]); done.
Qed.

Lemma elem_of_breakdown e d tracked :
  e ∈ breakdown d tracked ↔
  e = ReportHeader
  ∨ (∃ c, c ∈ tracked ∧ e ∈ contract_events d c)
  ∨ e = SourcesHeader
  ∨ (∃ c, is_Some (d !! c) ∧ e ∈ source_events d tracked (checked d tracked) c)
  ∨ e = Rule.
Proof.
  unfold breakdown. rewrite !elem_of_app, !list_elem_of_singleton, !elem_of_flat_map.
  setoid_rewrite elem_of_sorted_keys. tauto.
Qed.

Lemma elem_of_checked d tracked c :
  c ∈ checked d tracked ↔ c ∈ tracked ∧ is_Some (d !! c).
Proof. unfold checked. rewrite list_elem_of_filter. tauto. Qed.

Lemma metric_bad_iff data :
  all_100 data = false ↔ ∃ name v, MetricBad name v ∈ map metric_event (items data).
Proof.
  destruct data as [l s b f]. rewrite metric_events_items. unfold all_100.
  cbn [values items fmap list_fmap snd forallb lines statements branches functions].
  fold (eq100 l) (eq100 s) (eq100 b) (eq100 f). unfold metric_event. cbn [fst snd].
  split.
  - intros H. destruct (eq100 l) eqn:Hl; [|exists "lines", l; set_solver].
    destruct (eq100 s) eqn:Hs; [|exists "statements", s; set_solver].
    destruct (eq100 b) eqn:Hb; [|exists "branches", b; set_solver].
    destruct (eq100 f) eqn:Hf; [done|exists "functions", f; set_solver].
  - intros (name & v & H).
    destruct (eq100 l), (eq100 s), (eq100 b), (eq100 f); try done.
    exfalso. repeat (apply elem_of_cons in H as [H|H]; [discriminate|]).
    by apply elem_of_nil in H.
Qed.

Lemma verdict_false_iff d tracked :
  verdict d tracked = false ↔
  ∃ c data, c ∈ tracked ∧ d !! c = Some data ∧ all_100 data = false.
Proof.
  unfold verdict. split.
  - induction tracked as [|c l IH]; [done|]. cbn [forallb].
    intros [H|H]%andb_false_iff.
    + unfold contract_ok in H. destruct (d !! c) as [data|] eqn:Hd; [|done].
      exists c, data. split; [by left|done].
    + destruct (IH H) as (c' & data & Hc' & Hd & Ha).
      exists c', data. split; [by right|done].
  - intros (c & data & Hc & Hd & Ha).
    destruct (forallb (contract_ok d) tracked) eqn:Hv; [|done].
    rewrite forallb_forall in Hv. apply list_elem_of_In in Hc.
    specialize (Hv c Hc). unfold contract_ok in Hv. rewrite Hd in Hv. congruence.
Qed.

Lemma header_names_metric_events l : header_names (map metric_event l) = [].
Proof.
  induction l as [|it l IH]; [done|]. cbn [map]. unfold header_names in *.
  cbn [omap list_omap]. unfold metric_event at 1.
  by destruct (eq100 it.2).
Qed.

Lemma header_names_contract_events d c :
  header_names (contract_events d c) = filter (λ c, is_Some (d !! c)) [c].
Proof.
  unfold contract_events. cbn [filter list_filter].
  destruct (d !! c) as [data|] eqn:Hd.
  - rewrite decide_True by eauto. unfold header_names. cbn [omap list_omap].
    fold (header_names (map metric_event (items data))).
    by rewrite header_names_metric_events.
  - rewrite decide_False by (intros [? [=]]). done.
Qed.

Lemma header_names_source_events d tracked cs c :
  header_names (source_events d tracked cs c) = [].
Proof.
  unfold source_events. destruct (_ && _); [|done].
  destruct (negb _); [done|]. destruct (mem c cs); [|done].
  by destruct (d !! c).
Qed.

Lemma listed_names_metric_events l : listed_names (map metric_event l) = [].
Proof.
  induction l as [|it l IH]; [done|]. cbn [map]. unfold listed_names in *.
  cbn [omap list_omap]. unfold metric_event at 1.
  by destruct (eq100 it.2).
Qed.

Lemma listed_names_contract_events d c : listed_names (contract_events d c) = [].
Proof.
  unfold contract_events. destruct (d !! c) as [data|]; [|done].
  unfold listed_names. cbn [omap list_omap].
  apply listed_names_metric_events.
Qed.

Lemma listed_names_source_events d tracked cs c :
  sublist (listed_names (source_events d tracked cs c)) [c].
Proof.
  unfold source_events. destruct (_ && _); [|by apply sublist_nil_l].
  destruct (negb _); [done|]. destruct (mem c cs); [|by apply sublist_nil_l].
  destruct (d !! c); [done|by apply sublist_nil_l].
Qed.

Lemma StronglySorted_sublist {A} (R : relation A) (l k : list A) :
  sublist l k → StronglySorted R k → StronglySorted R l.
Proof.
  induction 1 as [|x l k Hs IH|x l k Hs IH]; intros Hk; [done| |].
  - apply StronglySorted_inv in Hk as [Hk Hx]. constructor; [auto|].
    rewrite Forall_forall in *. intros y Hy. apply Hx.
    by eapply elem_of_sublist.
  - apply StronglySorted_inv in Hk as [Hk _]. auto.
Qed.

Lemma sorted_keys_strongly_sorted d : StronglySorted String.le (sorted_keys d).
Proof. apply (StronglySorted_merge_sort String.le). Qed.

Lemma sorted_keys_NoDup d : NoDup (sorted_keys d).
Proof.
  unfold sorted_keys. rewrite merge_sort_Permutation.
  apply NoDup_fst_map_to_list.
Qed.

Lemma header_names_app a b : header_names (a ++ b) = header_names a ++ header_names b.
Proof. apply omap_app. Qed.

Lemma listed_names_app a b : listed_names (a ++ b) = listed_names a ++ listed_names b.
Proof. apply omap_app. Qed.

Lemma header_names_breakdown d tracked :
  header_names (breakdown d tracked) = filter (λ c, is_Some (d !! c)) tracked.
Proof.
  unfold breakdown. rewrite !header_names_app.
  assert (header_names (flat_map (source_events d tracked (checked d tracked))
                          (sorted_keys d)) = []) as ->.
  { induction (sorted_keys d) as [|k ks IH]; [done|]. cbn [flat_map].
    by rewrite header_names_app, header_names_source_events, IH. }
  change (header_names [ReportHeader]) with (@nil string).
  change (header_names [SourcesHeader]) with (@nil string).
  change (header_names [Rule]) with (@nil string).
  rewrite !app_nil_r, app_nil_l.
  induction tracked as [|c l IH]; [done|]. cbn [flat_map].
  rewrite header_names_app, header_names_contract_events, IH.
  change (c :: l) with ([c] ++ l). by rewrite filter_app.
Qed.

Lemma listed_names_breakdown d tracked :
  sublist (listed_names (breakdown d tracked)) (sorted_keys d).
Proof.
  unfold breakdown. rewrite !listed_names_app.
  assert (listed_names (flat_map (contract_events d) tracked) = []) as ->.
  { induction tracked as [|c l IH]; [done|]. cbn [flat_map].
    by rewrite listed_names_app, listed_names_contract_events, IH. }
  change (listed_names [ReportHeader]) with (@nil string).
  change (listed_names [SourcesHeader]) with (@nil string).
  change (listed_names [Rule]) with (@nil string).
  rewrite !app_nil_r, !app_nil_l.
  induction (sorted_keys d) as [|k ks IH]; [done|]. cbn [flat_map].
  rewrite listed_names_app. change (k :: ks) with ([k] ++ ks).
  apply sublist_app; [apply listed_names_source_events|done].
Qed.

(** ** What the report shows *)

(** X6. The check does not stop at the first failure: every tracked
    contract that is a key of the dictionary gets its header followed by
    one line for each of its four metrics, in the order lines, statements,
    branches, functions. The verdict is fail exactly when one of the
    printed metric lines is a failing one. *)
Theorem all_metrics_reported_and_fail_iff_bad_line
    (d : gmap string coverage) (tracked : list string) (out : list event) :
  ∃ (evs : list event) (all_pass : bool),
    evaluate d tracked out = (out ++ evs, inr all_pass)
    ∧ (all_pass = false ↔ ∃ name v, MetricBad name v ∈ evs)
    ∧ (∀ c data, c ∈ tracked → d !! c = Some data →
         ∃ before after,
           evs = before
                 ++ [ContractHeader c;
                     metric_event ("lines", lines data);
                     metric_event ("statements", statements data);
                     metric_event ("branches", branches data);
                     metric_event ("functions", functions data)]
                 ++ after).
Proof.
  exists (breakdown d tracked), (verdict d tracked).
  split; [apply evaluate_run|]. split.
  - rewrite verdict_false_iff. split.
    + intros (c & data & Hc & Hd & Ha). apply metric_bad_iff in Ha as (name & v & Hbad).
      exists name, v. apply elem_of_breakdown. right. left. exists c.
      split; [done|]. apply elem_of_contract_events. eauto.
    + intros (name & v & Hbad). apply elem_of_breakdown in Hbad
        as [?|[(c & Hc & Hev)|[?|[(c & _ & Hev)|?]]]]; try discriminate.
      * apply elem_of_contract_events in Hev as (data & Hd & [?|Hev]); [discriminate|].
        exists c, data. split_and!; [done..|]. apply metric_bad_iff. eauto.
      * apply elem_of_source_events in Hev
          as (_ & _ & [[_ ?]|(_ & _ & ? & _ & ?)]); discriminate.
  - intros c data Hc Hd. apply list_elem_of_split in Hc as (l1 & l2 & ->).
    exists ([ReportHeader] ++ flat_map (contract_events d) l1).
    eexists. unfold breakdown. rewrite flat_map_app. cbn [flat_map].
    unfold contract_events at 2. rewrite Hd, metric_events_items.
    rewrite <- !app_assoc. cbn [app]. reflexivity.
Qed.

(** X7. The sections of the report follow the tracked list, not the
    table: the contracts named by the section headers are, in order, the
    tracked contracts that are keys of the dictionary. *)
Theorem report_sections_follow_tracked_list
    (d : gmap string coverage) (tracked : list string) (out : list event) :
  ∃ (evs : list event) (all_pass : bool),
    evaluate d tracked out = (out ++ evs, inr all_pass)
    ∧ header_names evs = filter (λ c, is_Some (d !! c)) tracked.
Proof.
  exists (breakdown d tracked), (verdict d tracked).
  split; [apply evaluate_run|apply header_names_breakdown].
Qed.

(** X8. The listing of the sources names each contract at most once and
    in increasing order of the path. *)
Theorem listing_is_sorted_without_repeats
    (d : gmap string coverage) (tracked : list string) (out : list event) :
  ∃ (evs : list event) (all_pass : bool),
    evaluate d tracked out = (out ++ evs, inr all_pass)
    ∧ StronglySorted String.le (listed_names evs)
    ∧ NoDup (listed_names evs).
Proof.
  exists (breakdown d tracked), (verdict d tracked).
  split; [apply evaluate_run|]. pose proof (listed_names_breakdown d tracked) as Hsub.
  split.
  - exact (StronglySorted_sublist _ _ _ Hsub (sorted_keys_strongly_sorted d)).
  - exact (sublist_NoDup _ _ (sorted_keys_NoDup d) Hsub).
Qed.

(** X9. When every tracked path starts with [src/] and none is
    [src/Counter.sol], as in [PRODUCTION_CONTRACTS], the listing agrees
    with the verdict: every tracked contract of the dictionary gets a
    status line whose mark tells whether its four metrics are 100.0, and
    the verdict is pass exactly when every status line printed is a
    passing one. *)
Theorem status_lines_agree_with_verdict
    (d : gmap string coverage) (tracked : list string) (out : list event) :
  Forall (λ c, Str.startswith "src/" c = true ∧ c ≠ "src/Counter.sol") tracked →
  ∃ (evs : list event) (all_pass : bool),
    evaluate d tracked out = (out ++ evs, inr all_pass)
    ∧ (∀ c data, c ∈ tracked → d !! c = Some data → Status (all_100 data) c ∈ evs)
    ∧ (all_pass = true ↔ ∀ ok c, Status ok c ∈ evs → ok = true).
Proof.
  intros Hsrc. rewrite Forall_forall in Hsrc.
  exists (breakdown d tracked), (verdict d tracked).
  split; [apply evaluate_run|].
  assert (∀ c data, c ∈ tracked → d !! c = Some data →
                    Status (all_100 data) c ∈ breakdown d tracked) as Hstatus.
  { intros c data Hc Hd. destruct (Hsrc c Hc) as [Hs Hn].
    apply elem_of_breakdown. do 3 right. left. exists c. split; [by eauto|].
    apply elem_of_source_events. split_and!; [done..|]. right.
    split_and!; [done| |by eauto]. apply elem_of_checked. eauto. }
  split; [done|]. split.
  - intros Hv ok c Hev. apply elem_of_breakdown in Hev
      as [?|[(c' & Hc' & Hev)|[?|[(c' & _ & Hev)|?]]]]; try discriminate.
    + apply elem_of_contract_events in Hev as (data & Hd & [?|Hev]); [discriminate|].
      rewrite metric_events_items in Hev. unfold metric_event in Hev.
      repeat (apply elem_of_cons in Hev as [Hev|Hev];
              [by destruct (eq100 _)|]).
      by apply elem_of_nil in Hev.
    + apply elem_of_source_events in Hev
        as (_ & _ & [[_ ?]|(Hc & _ & data & Hd & [= -> ->])]); [discriminate|].
      destruct (all_100 data) eqn:Ha; [done|].
      assert (verdict d tracked = false) as Hf; [|congruence].
      apply verdict_false_iff. eauto.
  - intros Hall. destruct (verdict d tracked) eqn:Hv; [done|].
    apply verdict_false_iff in Hv as (c & data & Hc & Hd & Ha).
    specialize (Hall _ _ (Hstatus c data Hc Hd)). congruence.
Qed.

(** The theorem at [PRODUCTION_CONTRACTS] and a report of one of them. *)
Lemma status_lines_agree_witness :
  ∃ (evs : list event) (all_pass : bool),
    evaluate {["src/Minter.sol" := Coverage (PyFloat Float.hundred) (PyFloat Float.hundred)
                                     (PyInt 0) (PyFloat Float.hundred)]}
      PRODUCTION_CONTRACTS [] = ([] ++ evs, inr all_pass)
    ∧ (∀ c data, c ∈ PRODUCTION_CONTRACTS →
         ({["src/Minter.sol" := Coverage (PyFloat Float.hundred) (PyFloat Float.hundred)
                                  (PyInt 0) (PyFloat Float.hundred)]}
            : gmap string coverage) !! c = Some data →
         Status (all_100 data) c ∈ evs)
    ∧ (all_pass = true ↔ ∀ ok c, Status ok c ∈ evs → ok = true).
Proof.
  apply (status_lines_agree_with_verdict
           {["src/Minter.sol" := Coverage (PyFloat Float.hundred) (PyFloat Float.hundred)
                                   (PyInt 0) (PyFloat Float.hundred)]}
           PRODUCTION_CONTRACTS []).
  unfold PRODUCTION_CONTRACTS. repeat constructor; discriminate.
Defined.

(** X10. The report names only contracts of the dictionary, and among
    them only the tracked ones and those whose path starts with [src/]
    and is not [src/Counter.sol]: nothing is printed about any other
    contract of the table. *)
Theorem report_names_only_tracked_or_src
    (d : gmap string coverage) (tracked : list string) (out : list event) :
  ∃ (evs : list event) (all_pass : bool),
    evaluate d tracked out = (out ++ evs, inr all_pass)
    ∧ ∀ e c, e ∈ evs → event_contract e = Some c →
        is_Some (d !! c)
        ∧ (c ∈ tracked
           ∨ (Str.startswith "src/" c = true ∧ c ≠ "src/Counter.sol")).
Proof.
  exists (breakdown d tracked), (verdict d tracked).
  split; [apply evaluate_run|]. intros e c Hev Hname.
  apply elem_of_breakdown in Hev
    as [-> | [(c' & Hc' & Hev) | [-> | [(c' & Hkey & Hev) | ->]]]]; try discriminate.
  - apply elem_of_contract_events in Hev as (data & Hd & [-> | Hev]).
    + injection Hname as <-. eauto.
    + rewrite metric_events_items in Hev. unfold metric_event in Hev.
      repeat (apply elem_of_cons in Hev as [-> | Hev];
              [by destruct (eq100 _)|]).
      by apply elem_of_nil in Hev.
  - apply elem_of_source_events in Hev
      as (Hs & Hn & [[_ ->] | (_ & _ & data & _ & ->)]);
      injection Hname as <-; auto.
Qed.

(** ** From the text to the exit status *)

(** X11. What an exit status of 0 guarantees: for every tracked path, the
    last row of the table that carries it has 100.0 in each of its four
    metric cells. *)
Theorem exit_zero_means_last_rows_at_100
    (tracked : list string) (proc : CompletedProcess)
    (pre post : list string) (line : string) :
  returncode proc = 0 →
  (run_with tracked proc).2 = 0 →
  Str.split "010" (stdout proc) = pre ++ line :: post →
  is_data_row line = true →
  path_cell line ∈ tracked →
  Forall (λ ln, is_data_row ln = true → path_cell ln ≠ path_cell line) post →
  ∃ vl vs vb vf,
    metric (cell line 2) = inr vl ∧ metric (cell line 3) = inr vs
    ∧ metric (cell line 4) = inr vb ∧ metric (cell line 5) = inr vf
    ∧ Num.eq_float vl Float.hundred = true
    ∧ Num.eq_float vs Float.hundred = true
    ∧ Num.eq_float vb Float.hundred = true
    ∧ Num.eq_float vf Float.hundred = true.
Proof.
  intros Hrc Hexit Hsplit Hrow Htracked Hpost.
  rewrite run_with_eq, Hrc in Hexit. cbn [Z.eqb snd] in Hexit. cbv zeta in Hexit.
  destruct (verdict _ tracked) eqn:Hv; [|done].
  rewrite Hsplit in Hv.
  pose proof (fold_step_last pre line post ∅ Hrow Hpost) as Hlast.
  destruct (proj1 (verdict_true_iff _ _) Hv _ _ Htracked Hlast)
    as (Hl & Hs & Hb & Hf).
  exists (number_of (cell line 2)), (number_of (cell line 3)),
    (number_of (cell line 4)), (number_of (cell line 5)).
  rewrite !metric_total. split_and!; done.
Qed.

(** The theorem at a passing run with two rows for [src/Minter.sol]. *)
Lemma exit_zero_means_last_rows_witness :
  ∃ vl vs vb vf,
    metric (cell "| src/Minter.sol | 100.00% (3/3) | 100.00% (4/4) | 100.00% (2/2) | 100.00% (1/1) |" 2) = inr vl
    ∧ metric (cell "| src/Minter.sol | 100.00% (3/3) | 100.00% (4/4) | 100.00% (2/2) | 100.00% (1/1) |" 3) = inr vs
    ∧ metric (cell "| src/Minter.sol | 100.00% (3/3) | 100.00% (4/4) | 100.00% (2/2) | 100.00% (1/1) |" 4) = inr vb
    ∧ metric (cell "| src/Minter.sol | 100.00% (3/3) | 100.00% (4/4) | 100.00% (2/2) | 100.00% (1/1) |" 5) = inr vf
    ∧ Num.eq_float vl Float.hundred = true
    ∧ Num.eq_float vs Float.hundred = true
    ∧ Num.eq_float vb Float.hundred = true
    ∧ Num.eq_float vf Float.hundred = true.
Proof.
  apply (exit_zero_means_last_rows_at_100 PRODUCTION_CONTRACTS
           (Completed 0
              ("| src/Minter.sol | 50.00% (1/2) | 100.00% (4/4) | 100.00% (2/2) | 100.00% (1/1) |"
               +:+ nl +:+
               "| src/Minter.sol | 100.00% (3/3) | 100.00% (4/4) | 100.00% (2/2) | 100.00% (1/1) |")
              "")
           ["| src/Minter.sol | 50.00% (1/2) | 100.00% (4/4) | 100.00% (2/2) | 100.00% (1/1) |"]
           []
           "| src/Minter.sol | 100.00% (3/3) | 100.00% (4/4) | 100.00% (2/2) | 100.00% (1/1) |").
  - reflexivity.
  - vm_compute. reflexivity.
  - reflexivity.
  - reflexivity.
  - apply (bool_decide_unpack _). vm_compute. exact I.
  - constructor.
Defined.
